(** * hypothesis_cli: schema loading, complexity limiting and run orchestration

    A shallow embedding of [src/hypothesis_cli.py].  Python values that the
    program handles are JSON trees as produced by [json.load]; dictionaries
    keep their insertion order, so they are association lists whose keys are
    pairwise distinct.  Exceptions are values of [exn]; code that may raise
    returns a [res]. *)

From Stdlib Require Import ZArith List String Ascii Bool Lia.
From Stdlib Require Import Floats.SpecFloat.
Import ListNotations.
Local Open Scope string_scope.
Local Open Scope Z_scope.

(** ** JSON values *)

Module Json.

(** What [json.load] builds: [None], [bool], [int], [float], [str], [list]
    and [dict].  Python accepts the literals [NaN], [Infinity] and
    [-Infinity], hence the full [spec_float]. *)
Unset Elimination Schemes.
Inductive json : Type :=
| JNull
| JBool (b : bool)
| JInt (n : Z)
| JFloat (f : spec_float)
| JStr (s : string)
| JList (l : list json)
| JDict (d : list (string * json)).
Set Elimination Schemes.

Definition dict := list (string * json).

(** [isinstance(value, (dict, list))] *)
Definition is_container (v : json) : bool :=
  match v with
  | JList _ | JDict _ => true
  | _ => false
  end.

(** [value == s] for a string literal [s]: only a [str] can be equal to it. *)
Definition py_eq_str (v : json) (s : string) : bool :=
  match v with
  | JStr t => String.eqb t s
  | _ => false
  end.

(** [value in [s1, ..., sn]] for string literals. *)
Definition py_in_strs (v : json) (ss : list string) : bool :=
  existsb (py_eq_str v) ss.

(** [schema.get(key)]: the value stored under [key], if any. *)
Fixpoint dict_get (d : dict) (k : string) : option json :=
  match d with
  | [] => None
  | (k', v) :: rest => if String.eqb k' k then Some v else dict_get rest k
  end.

(** [schema.get(key, default)] *)
Definition dict_get_default (d : dict) (k : string) (dflt : json) : json :=
  match dict_get d k with
  | Some v => v
  | None => dflt
  end.

(** [schema[key] = v]: an existing key keeps its position, a new key goes
    last. *)
Fixpoint dict_set (d : dict) (k : string) (v : json) : dict :=
  match d with
  | [] => [(k, v)]
  | (k', v') :: rest =>
      if String.eqb k' k then (k, v) :: rest else (k', v') :: dict_set rest k v
  end.

Definition keys (d : dict) : list string := map fst d.

(** Dictionaries have pairwise distinct keys, at every depth. *)
Fixpoint distinct (ks : list string) : bool :=
  match ks with
  | [] => true
  | k :: rest => negb (existsb (String.eqb k) rest) && distinct rest
  end.

Fixpoint wf (v : json) : bool :=
  match v with
  | JList l => forallb wf l
  | JDict d =>
      distinct (map fst d) && forallb (fun kv => wf (snd kv)) d
  | _ => true
  end.

End Json.
Export Json.

(** ** Exceptions and results

    The exceptions a run can meet: those of [open], of the [json] decoder,
    the loader's own [ValueError], the [TypeError] of [min], the runner's
    [AssertionError], whatever the generation library or the subprocess
    call raise ([LibraryError]), an interrupt, and the [SystemExit] of
    [sys.exit].  An exception is kept by its class; [TypeError] stands for
    every [TypeError], whatever message it carries. *)

Inductive exn : Type :=
| FileNotFoundError (path : string)
| OSError (path : string)
| JSONDecodeError (doc : string)
| ValueError (msg : string)
| TypeError
| AssertionError (msg : string)
| LibraryError (name : string)
| KeyboardInterrupt
| SystemExit (code : Z).

Inductive res (A : Type) : Type :=
| Ok (a : A)
| Raise (e : exn).
Arguments Ok {A} a.
Arguments Raise {A} e.

Definition rbind {A B} (m : res A) (f : A -> res B) : res B :=
  match m with
  | Ok a => f a
  | Raise e => Raise e
  end.

Notation "x <- m ;; k" := (rbind m (fun x => k))
  (at level 61, m at next level, right associativity).

(** ** Numbers as Python compares them

    [int] and [bool] compare as integers, a [float] by its IEEE value, and
    an [int] against a [float] exactly.  A finite number is [n * 2^e]. *)

Module Num.

Inductive xreal : Type :=
| XNaN
| XInf (neg : bool)
| XDy (n e : Z).

Definition of_float (f : spec_float) : xreal :=
  match f with
  | S754_zero _ => XDy 0 0
  | S754_infinity s => XInf s
  | S754_nan => XNaN
  | S754_finite s m e => XDy (if s then Z.neg m else Z.pos m) e
  end.

Definition of_json (v : json) : option xreal :=
  match v with
  | JBool b => Some (XDy (if b then 1 else 0) 0)
  | JInt n => Some (XDy n 0)
  | JFloat f => Some (of_float f)
  | _ => None
  end.

(** [n * 2^e] brought to the exponent [e0 <= e]. *)
Definition scaled (n e e0 : Z) : Z := n * 2 ^ (e - e0).

Definition ltb (a b : xreal) : bool :=
  match a, b with
  | XNaN, _ | _, XNaN => false
  | XInf true, XInf true => false
  | XInf true, _ => true
  | _, XInf true => false
  | XInf false, _ => false
  | _, XInf false => true
  | XDy n1 e1, XDy n2 e2 =>
      let e0 := Z.min e1 e2 in scaled n1 e1 e0 <? scaled n2 e2 e0
  end.

Definition leb (a b : xreal) : bool :=
  match a, b with
  | XNaN, _ | _, XNaN => false
  | XInf true, _ => true
  | _, XInf true => false
  | _, XInf false => true
  | XInf false, _ => false
  | XDy n1 e1, XDy n2 e2 =>
      let e0 := Z.min e1 e2 in scaled n1 e1 e0 <=? scaled n2 e2 e0
  end.

Definition is_nan (a : xreal) : bool :=
  match a with
  | XNaN => true
  | _ => false
  end.

End Num.

(** [min(x, c)] for an [int] literal [c]: Python keeps [x] unless [c < x],
    and [c < x] raises [TypeError] when [x] is not a number. *)
Definition py_min (x : json) (c : Z) : res json :=
  match Num.of_json x with
  | Some a => Ok (if Num.ltb (Num.XDy c 0) a then JInt c else x)
  | None => Raise TypeError
  end.

(** ** The complexity limiter *)

(** The body of [for key, value in list(schema.items())]: [items] is the
    snapshot still to visit, [schema] the dictionary being updated, [rec]
    the recursive call. *)
Fixpoint dict_loop (rec : json -> res json) (items : dict) (schema : dict)
  : res dict :=
  match items with
  | [] => Ok schema
  | (key, value) :: rest =>
      if String.eqb key "type" && py_eq_str value "array" then
        m <- py_min (dict_get_default schema "maxItems" (JInt 10)) 5 ;;
        dict_loop rec rest (dict_set schema "maxItems" m)
      else if String.eqb key "type" && py_eq_str value "object" then
        m <- py_min (dict_get_default schema "maxProperties" (JInt 10)) 5 ;;
        dict_loop rec rest (dict_set schema "maxProperties" m)
      else if String.eqb key "type"
              && py_in_strs value ["string"; "number"; "integer"] then
        m <- py_min (dict_get_default schema "maxLength" (JInt 100)) 20 ;;
        dict_loop rec rest (dict_set schema "maxLength" m)
      else if is_container value then
        v' <- rec value ;;
        dict_loop rec rest (dict_set schema key v')
      else dict_loop rec rest schema
  end.

(** [[rec(item) for item in schema]] *)
Fixpoint list_comp (rec : json -> res json) (l : list json)
  : res (list json) :=
  match l with
  | [] => Ok []
  | item :: rest =>
      v <- rec item ;;
      vs <- list_comp rec rest ;;
      Ok (v :: vs)
  end.

(** The interpreter's recursion limit is outside the model: on a schema
    nested deeper than it allows, Python raises [RecursionError] where
    this function goes on.  What is proved of a schema the limiter
    returns does not depend on it. *)
Fixpoint limit_complexity (schema : json) : res json :=
  match schema with
  | JDict d =>
      d' <- dict_loop limit_complexity d d ;;
      Ok (JDict d')
  | JList l =>
      l' <- list_comp limit_complexity l ;;
      Ok (JList l')
  | _ => Ok schema
  end.

(** ** Effects: output, files, subprocesses

    Every [print] of the program is one [msg]; an f-string keeps the values
    it interpolates.  A computation yields the events it performed, in
    order, and either a value or the exception that ended it. *)

Record completed : Type :=
  { returncode : Z; stdout : string; stderr : string }.

Inductive msg : Type :=
| StartingCLI
| CompletedCLI
| ReceivedArguments (schema : string) (num : Z) (seed : option Z)
                    (script : option string)
| AttemptingLoad (schema_input : string)
| LoadedFromFile (schema_input : string)
| ParsedInline
| SettingSeed (seed : Z)
| GeneratingInstances (num : Z) (seed : option Z)
| UsingSchema (schema : json)
| StartingGeneration
| GeneratedInstance (instance : json)
| FinishedGeneration
| RunningScript (script : string)
| GeneratingTests (num : Z)
| StartingTests
| GeneratedTestInstance (instance : json)
| ExecutingScript (script : string)
| ScriptFailedWith (out err : string)
| ScriptSucceeded
| FinishedTests
| ErrorLine (e : exn).

Inductive event : Type :=
| Stdout (m : msg)
| Stderr (m : msg)
| FileWrite (path : string) (content : json)
| Spawn (argv : list string).

Definition M (A : Type) : Type := (list event * res A)%type.

Definition ret {A} (a : A) : M A := ([], Ok a).
Definition raise {A} (e : exn) : M A := ([], Raise e).
Definition emit (ev : event) : M unit := ([ev], Ok tt).
Definition print (m : msg) : M unit := emit (Stdout m).
Definition eprint (m : msg) : M unit := emit (Stderr m).
Definition lift {A} (r : res A) : M A := ([], r).

Definition mbind {A B} (m : M A) (f : A -> M B) : M B :=
  match m with
  | (t, Ok a) => let (t', r) := f a in ((t ++ t')%list, r)
  | (t, Raise e) => (t, Raise e)
  end.

Notation "'let*' x ':=' m 'in' k" := (mbind m (fun x => k))
  (at level 10, x name, m at level 100, k at level 200).
Notation "m ;;; k" := (mbind m (fun _ => k))
  (at level 62, right associativity).

(** [try: body except C as e: handler(e)], with [catches] deciding
    [isinstance(e, C)]. *)
Definition try_except {A} (body : M A) (catches : exn -> bool)
    (handler : exn -> M A) : M A :=
  match body with
  | (t, Raise e) =>
      if catches e then let (t', r) := handler e in ((t ++ t')%list, r)
      else (t, Raise e)
  | done => done
  end.

(** The exception classes the program names.  [json.JSONDecodeError] is a
    subclass of [ValueError]; [KeyboardInterrupt] and [SystemExit] are not
    subclasses of [Exception]. *)
Definition is_FileNotFoundError (e : exn) : bool :=
  match e with
  | FileNotFoundError _ => true
  | _ => false
  end.

Definition is_JSONDecodeError (e : exn) : bool :=
  match e with
  | JSONDecodeError _ => true
  | _ => false
  end.

Definition is_ValueError (e : exn) : bool :=
  match e with
  | ValueError _ | JSONDecodeError _ => true
  | _ => false
  end.

Definition is_Exception (e : exn) : bool :=
  match e with
  | KeyboardInterrupt | SystemExit _ => false
  | _ => true
  end.

(** What [open(path, 'r')] finds: a file with its text, no file, or a
    path the operating system refuses to open (a directory, a file without
    read permission).  A path [open] rejects before it reaches the file
    system and a file that cannot be read as text are not modelled. *)
Inductive open_result : Type :=
| Opened (text : string)
| NotFound
| Refused.

(** What the program calls but does not define: the file system, the
    [json] decoder, the generation library and the operating system. *)
Record world : Type :=
  { fs_open : string -> open_result;
    (** [json.loads]; [None] stands for [json.JSONDecodeError] *)
    json_decode : string -> option json;
    (** [st.random.seed(seed)] *)
    seed_random : Z -> res unit;
    (** [from_schema(schema)]: the strategy, as the examples it yields *)
    from_schema : json -> res (nat -> res json);
    (** [subprocess.run(argv, capture_output=True, text=True)] with the
        instance that [testcase.json] holds at that moment *)
    subprocess_run : list string -> json -> res completed }.

(** [open(path, 'r')] and reading the file; [FileNotFoundError] is the
    subclass of [OSError] the loader looks for. *)
Definition py_open (w : world) (path : string) : res string :=
  match fs_open w path with
  | Opened text => Ok text
  | NotFound => Raise (FileNotFoundError path)
  | Refused => Raise (OSError path)
  end.

Definition json_loads (w : world) (s : string) : res json :=
  match json_decode w s with
  | Some v => Ok v
  | None => Raise (JSONDecodeError s)
  end.

(** ** The schema loader *)

Definition load_schema (w : world) (schema_input : string) : M json :=
  print (AttemptingLoad schema_input) ;;;
  try_except
    (let* text := lift (py_open w schema_input) in
     let* schema := lift (json_loads w text) in
     print (LoadedFromFile schema_input) ;;;
     ret schema)
    is_FileNotFoundError
    (fun _ =>
       try_except
         (let* schema := lift (json_loads w schema_input) in
          print ParsedInline ;;;
          ret schema)
         is_JSONDecodeError
         (fun _ => raise (ValueError ("Invalid schema: " ++ schema_input)))).

(** ** The generation library

    Modelled from the spec: [given] and [settings(max_examples=num)] belong
    to the external generation library, which is not among the sources.
    The spec has it run the body on one instance after the other, [num]
    times, and has the first failure end the whole run. *)
Fixpoint run_examples (strategy : nat -> res json) (body : json -> M unit)
    (i : nat) (n : nat) : M unit :=
  match n with
  | O => ret tt
  | S n' =>
      let* instance := lift (strategy i) in
      body instance ;;;
      run_examples strategy body (S i) n'
  end.

Definition given (strategy : nat -> res json) (max_examples : Z)
    (body : json -> M unit) : M unit :=
  run_examples strategy body 0 (Z.to_nat max_examples).

(** ** The instance generator *)

Definition print_instance (instance : json) : M unit :=
  print (GeneratedInstance instance).

Definition generate_json_instances (w : world) (schema : json) (num : Z)
    (seed : option Z) : M unit :=
  print (GeneratingInstances num seed) ;;;
  print (UsingSchema schema) ;;;
  let* limited_schema := lift (limit_complexity schema) in
  let* strategy := lift (from_schema w limited_schema) in
  print StartingGeneration ;;;
  given strategy num print_instance ;;;
  print FinishedGeneration.

(** ** The script runner

    [FileWrite] and [Spawn] record that the program reaches the write and
    the call of the script; a write that fails is not modelled, and a
    call that cannot start the script is the [Raise] of
    [subprocess_run]. *)

Definition test_instance (w : world) (script : string) (instance : json)
  : M unit :=
  print (GeneratedTestInstance instance) ;;;
  emit (FileWrite "testcase.json" instance) ;;;
  print (ExecutingScript script) ;;;
  emit (Spawn [script; "testcase.json"]) ;;;
  let* result := lift (subprocess_run w [script; "testcase.json"] instance) in
  if negb (returncode result =? 0) then
    print (ScriptFailedWith (stdout result) (stderr result)) ;;;
    raise (AssertionError "Test script failed")
  else print ScriptSucceeded.

Definition run_test_script (w : world) (schema : json) (num : Z)
    (script : string) : M unit :=
  print (RunningScript script) ;;;
  print (GeneratingTests num) ;;;
  let* limited_schema := lift (limit_complexity schema) in
  let* strategy := lift (from_schema w limited_schema) in
  print StartingTests ;;;
  given strategy num (test_instance w script) ;;;
  print FinishedTests.

(** ** The command line driver *)

(** The namespace [parser.parse_args()] returns. *)
Record arguments : Type :=
  { arg_schema : string;
    arg_num : Z;
    arg_seed : option Z;
    arg_script : option string }.

(** [if args.script:] holds for a string that is present and not empty. *)
Definition truthy (s : option string) : option string :=
  match s with
  | Some EmptyString | None => None
  | Some path => Some path
  end.

(** The body of the second [try] of [main]. *)
Definition selected_run (w : world) (schema : json) (args : arguments)
  : M unit :=
  match truthy (arg_script args) with
  | Some script => run_test_script w schema (arg_num args) script
  | None => generate_json_instances w schema (arg_num args) (arg_seed args)
  end.

(** [if args.seed is not None: ...] *)
Definition set_seed (w : world) (args : arguments) : M unit :=
  match arg_seed args with
  | Some seed => print (SettingSeed seed) ;;; lift (seed_random w seed)
  | None => ret tt
  end.

Definition main (w : world) (args : arguments) : M unit :=
  print (ReceivedArguments (arg_schema args) (arg_num args) (arg_seed args)
                           (arg_script args)) ;;;
  let* schema :=
    try_except (load_schema w (arg_schema args)) is_ValueError
      (fun e => eprint (ErrorLine e) ;;; raise (SystemExit 1)) in
  set_seed w args ;;;
  try_except (selected_run w schema args) is_Exception
    (fun e => eprint (ErrorLine e) ;;; raise (SystemExit 1)).

(** The [__main__] block. *)
Definition cli (w : world) (args : arguments) : M unit :=
  print StartingCLI ;;;
  main w args ;;;
  print CompletedCLI.

(** The status the interpreter exits with: 0 after a normal return, the
    code of a [SystemExit], 1 after any other uncaught exception. *)
Definition exit_status {A} (r : res A) : Z :=
  match r with
  | Ok _ => 0
  | Raise (SystemExit code) => code
  | Raise _ => 1
  end.

(** ** Nodes of a schema tree *)

Inductive step : Type :=
| Key (k : string)
| Idx (i : nat).

(** The node reached from [v] by following dictionary keys and list
    positions. *)
Fixpoint at_path (p : list step) (v : json) : option json :=
  match p with
  | [] => Some v
  | Key k :: p' =>
      match v with
      | JDict d =>
          match dict_get d k with
          | Some v' => at_path p' v'
          | None => None
          end
      | _ => None
      end
  | Idx i :: p' =>
      match v with
      | JList l =>
          match nth_error l i with
          | Some v' => at_path p' v'
          | None => None
          end
      | _ => None
      end
  end.

(** The three keys the limiter writes. *)
Definition bound_keys : list string :=
  ["maxItems"; "maxProperties"; "maxLength"].

Definition is_bound_key (k : string) : bool :=
  existsb (String.eqb k) bound_keys.

(** The ceiling configured for a bound key. *)
Definition ceiling (k : string) : Z :=
  if String.eqb k "maxLength" then 20 else 5.

(** A number in the sense of the bounds: [int], [bool] (an [int] in
    Python) or a [float] other than NaN. *)
Definition numeric (v : json) : bool :=
  match Num.of_json v with
  | Some a => negb (Num.is_nan a)
  | None => false
  end.

(** [a <= b] on numbers; [false] when either side is not a number. *)
Definition py_le (a b : json) : bool :=
  match Num.of_json a, Num.of_json b with
  | Some x, Some y => Num.leb x y
  | _, _ => false
  end.

(** ** Conformance of an instance to a schema

    Modelled from the spec: the generation library [from_schema] comes from
    is not among the sources.  The spec has it produce instances that
    conform to the schema; for the keywords the limiter reads and writes
    that is the JSON Schema meaning of [type], [items], [maxItems],
    [maxProperties] and [maxLength]. *)
Module Conform.

Definition has_type (t : string) (instance : json) : bool :=
  match instance with
  | JNull => String.eqb t "null"
  | JBool _ => String.eqb t "boolean"
  | JInt _ => String.eqb t "integer" || String.eqb t "number"
  | JFloat _ => String.eqb t "number"
  | JStr _ => String.eqb t "string"
  | JList _ => String.eqb t "array"
  | JDict _ => String.eqb t "object"
  end.

Definition check_type (schema : dict) (instance : json) : bool :=
  match dict_get schema "type" with
  | Some (JStr t) => has_type t instance
  | Some (JList ts) =>
      existsb (fun t => match t with
                        | JStr s => has_type s instance
                        | _ => false
                        end) ts
  | _ => true
  end.

Definition at_most (schema : dict) (k : string) (size : nat) : bool :=
  match dict_get schema k with
  | Some bound => py_le (JInt (Z.of_nat size)) bound
  | None => true
  end.

Fixpoint conforms (schema : json) (instance : json) {struct instance}
  : bool :=
  match schema with
  | JDict s =>
      check_type s instance
      && match instance with
         | JList l =>
             at_most s "maxItems" (List.length l)
             && match dict_get s "items" with
                | Some item_schema => forallb (conforms item_schema) l
                | None => true
                end
         | JDict d => at_most s "maxProperties" (List.length d)
         | JStr t => at_most s "maxLength" (String.length t)
         | _ => true
         end
  | _ => true
  end.

End Conform.

(** The instances a run printed, in order. *)
Fixpoint generated_instances (t : list event) : list json :=
  match t with
  | [] => []
  | Stdout (GeneratedInstance i) :: t' => i :: generated_instances t'
  | _ :: t' => generated_instances t'
  end.

(** The instances a run handed to the script, in order. *)
Fixpoint tested_instances (t : list event) : list json :=
  match t with
  | [] => []
  | Stdout (GeneratedTestInstance i) :: t' => i :: tested_instances t'
  | _ :: t' => tested_instances t'
  end.

(** What a run wrote on the diagnostic stream. *)
Fixpoint diagnostics (t : list event) : list msg :=
  match t with
  | [] => []
  | Stderr m :: t' => m :: diagnostics t'
  | _ :: t' => diagnostics t'
  end.

Definition is_int_array (v : json) : bool :=
  match v with
  | JList l => forallb (fun x => match x with JInt _ => true | _ => false end) l
  | _ => false
  end.

Definition array_length (v : json) : Z :=
  match v with
  | JList l => Z.of_nat (List.length l)
  | _ => 0
  end.

(** ** A decoder to run the loader on concrete text

    The theorems hold for every decoder a [world] may carry.  To evaluate
    the loader on concrete text, [Decoder.loads] reads the fragment of JSON
    without string escapes, fractions and exponents, and rejects the rest;
    a repeated key keeps its last value, as in Python. *)
Module Decoder.

Local Open Scope char_scope.

Definition dquote : ascii := "034".

Definition is_ws (c : ascii) : bool :=
  Ascii.eqb c " " || Ascii.eqb c "009" || Ascii.eqb c "010"
  || Ascii.eqb c "013".

Fixpoint skip_ws (cs : list ascii) : list ascii :=
  match cs with
  | c :: rest => if is_ws c then skip_ws rest else cs
  | [] => []
  end.

Definition digit_of (c : ascii) : option Z :=
  let n := Z.of_nat (nat_of_ascii c) in
  if ((48 <=? n) && (n <=? 57))%Z then Some (n - 48)%Z else None.

Fixpoint digits (cs : list ascii) (acc : Z) : Z * list ascii :=
  match cs with
  | c :: rest =>
      match digit_of c with
      | Some d => digits rest (10 * acc + d)%Z
      | None => (acc, cs)
      end
  | [] => (acc, [])
  end.

Definition starts_fraction (cs : list ascii) : bool :=
  match cs with
  | c :: _ => Ascii.eqb c "." || Ascii.eqb c "e" || Ascii.eqb c "E"
  | [] => false
  end.

Definition unsigned (cs : list ascii) : option (Z * list ascii) :=
  match cs with
  | c :: rest =>
      match digit_of c with
      | Some 0%Z =>
          match rest with
          | c' :: _ => match digit_of c' with
                       | Some _ => None
                       | None => Some (0%Z, rest)
                       end
          | [] => Some (0%Z, rest)
          end
      | Some d => Some (digits rest d)
      | None => None
      end
  | [] => None
  end.

Definition integer (cs : list ascii) : option (json * list ascii) :=
  let (neg, body) :=
    match cs with
    | c :: rest => if Ascii.eqb c "-" then (true, rest) else (false, cs)
    | [] => (false, cs)
    end in
  match unsigned body with
  | Some (n, rest) =>
      if starts_fraction rest then None
      else Some (JInt (if neg then (- n)%Z else n), rest)
  | None => None
  end.

Fixpoint text (cs : list ascii) (acc : list ascii)
  : option (string * list ascii) :=
  match cs with
  | [] => None
  | c :: rest =>
      if Ascii.eqb c dquote then
        Some (string_of_list_ascii (rev acc), rest)
      else if Ascii.eqb c "\" || (nat_of_ascii c <? 32)%nat then None
      else text rest (c :: acc)
  end.

Fixpoint keyword (w : list ascii) (cs : list ascii) : option (list ascii) :=
  match w, cs with
  | [], _ => Some cs
  | a :: w', c :: cs' => if Ascii.eqb a c then keyword w' cs' else None
  | _ :: _, [] => None
  end.

Section Containers.
Variable value : list ascii -> option (json * list ascii).

Fixpoint elements (n : nat) (cs : list ascii) (acc : list json)
  : option (json * list ascii) :=
  match n with
  | O => None
  | S n' =>
      match value cs with
      | Some (v, rest) =>
          match skip_ws rest with
          | c :: rest' =>
              if Ascii.eqb c "," then elements n' rest' (v :: acc)
              else if Ascii.eqb c "]" then Some (JList (rev (v :: acc)), rest')
              else None
          | [] => None
          end
      | None => None
      end
  end.

Fixpoint members (n : nat) (cs : list ascii) (acc : dict)
  : option (json * list ascii) :=
  match n with
  | O => None
  | S n' =>
      match skip_ws cs with
      | q :: cs1 =>
          if Ascii.eqb q dquote then
            match text cs1 [] with
            | Some (k, cs2) =>
                match skip_ws cs2 with
                | colon :: cs3 =>
                    if Ascii.eqb colon ":" then
                      match value cs3 with
                      | Some (v, rest) =>
                          match skip_ws rest with
                          | c :: rest' =>
                              if Ascii.eqb c "," then
                                members n' rest' (dict_set acc k v)
                              else if Ascii.eqb c "}" then
                                Some (JDict (dict_set acc k v), rest')
                              else None
                          | [] => None
                          end
                      | None => None
                      end
                    else None
                | [] => None
                end
            | None => None
            end
          else None
      | [] => None
      end
  end.
End Containers.

Fixpoint value (fuel : nat) (cs : list ascii) : option (json * list ascii) :=
  match fuel with
  | O => None
  | S fuel' =>
      match skip_ws cs with
      | [] => None
      | c :: rest =>
          if Ascii.eqb c "[" then
            match skip_ws rest with
            | c' :: rest' =>
                if Ascii.eqb c' "]" then Some (JList [], rest')
                else elements (value fuel') fuel' rest []
            | [] => None
            end
          else if Ascii.eqb c "{" then
            match skip_ws rest with
            | c' :: rest' =>
                if Ascii.eqb c' "}" then Some (JDict [], rest')
                else members (value fuel') fuel' rest []
            | [] => None
            end
          else if Ascii.eqb c dquote then
            match text rest [] with
            | Some (s, rest') => Some (JStr s, rest')
            | None => None
            end
          else if Ascii.eqb c "n" then
            option_map (pair JNull) (keyword ["u"; "l"; "l"] rest)
          else if Ascii.eqb c "t" then
            option_map (pair (JBool true)) (keyword ["r"; "u"; "e"] rest)
          else if Ascii.eqb c "f" then
            option_map (pair (JBool false))
                       (keyword ["a"; "l"; "s"; "e"] rest)
          else integer (c :: rest)
      end
  end.

Definition loads (s : string) : option json :=
  let cs := list_ascii_of_string s in
  match value (S (List.length cs)) cs with
  | Some (v, rest) =>
      match skip_ws rest with
      | [] => Some v
      | _ :: _ => None
      end
  | None => None
  end.

End Decoder.

(** JSON text with its quotation marks: [quoted "type"] is the five-letter
    text between two marks. *)
Definition quoted (s : string) : string :=
  String Decoder.dquote (s ++ String Decoder.dquote EmptyString).

(** The text [{"type": "integer"}] *)
Definition integer_schema_text : string :=
  "{" ++ quoted "type" ++ ": " ++ quoted "integer" ++ "}".

(** The text [{"type": "array", "items": {"type": "integer"}}] *)
Definition array_schema_text : string :=
  "{" ++ quoted "type" ++ ": " ++ quoted "array" ++ ", "
      ++ quoted "items" ++ ": " ++ integer_schema_text ++ "}".

Definition integer_schema : json := JDict [("type", JStr "integer")].

Definition array_schema : json :=
  JDict [("type", JStr "array"); ("items", integer_schema)].

(** ** The limiter's decision at a [type] entry

    The three [key == "type" and ...] tests of the loop, read as one
    decision: the bound key to write, the default for a missing bound and
    the ceiling. *)
Definition trigger (key : string) (value : json) : option (string * Z * Z) :=
  if String.eqb key "type" then
    if py_eq_str value "array" then Some ("maxItems", 10, 5)
    else if py_eq_str value "object" then Some ("maxProperties", 10, 5)
    else if py_in_strs value ["string"; "number"; "integer"] then
      Some ("maxLength", 100, 20)
    else None
  else None.

(** The bound a dictionary's own [type] entry asks for. *)
Definition type_bound (d : dict) : option (string * Z * Z) :=
  match dict_get d "type" with
  | Some v => trigger "type" v
  | None => None
  end.

(** What the loop leaves under a key it does not cap: a container is
    replaced by its limited form, anything else stays. *)
Definition limited_entry (rec : json -> res json) (items cur : dict)
    (k : string) : option json :=
  match dict_get items k with
  | Some v =>
      if is_container v then
        match rec v with
        | Ok v' => Some v'
        | Raise _ => None
        end
      else dict_get cur k
  | None => dict_get cur k
  end.

(** ** Properties of the limiter, as predicates *)

(** The limiter caps bound key [k] at this node. *)
Definition caps (d : dict) (k : string) : bool :=
  match type_bound d with
  | Some (b, _, _) => String.eqb b k
  | None => false
  end.

(** [m] is the minimum of the number [x] and the integer [c] as Python's
    [min(x, c)] picks it: [x] itself when [x <= c], the integer [c]
    otherwise; a NaN, which compares with nothing, is handed back as it
    is.  A value that is not a number has no minimum with [c]. *)
Definition min_of (x : json) (c : Z) (m : json) : Prop :=
  match Num.of_json x with
  | Some a =>
      if Num.is_nan a then m = x
      else m = (if py_le x (JInt c) then x else JInt c)
  | None => False
  end.

(** [d'[k] = min(d.get(k, dflt), c)]: the entry of [d'] is the minimum of
    the existing bound, or of [dflt] when there is none, and [c]; on an
    integer bound [z] it is the integer [Z.min z c]. *)
Definition written_with_min (d d' : dict) (k : string) (dflt c : Z) : Prop :=
  exists m,
    dict_get d' k = Some m
    /\ min_of (dict_get_default d k (JInt dflt)) c m
    /\ (forall z, dict_get_default d k (JInt dflt) = JInt z ->
                  m = JInt (Z.min z c)).

Definition capped_by_formula (d d' : dict) : Prop :=
  (dict_get d "type" = Some (JStr "array") ->
   written_with_min d d' "maxItems" 10 5)
  /\ (dict_get d "type" = Some (JStr "object") ->
      written_with_min d d' "maxProperties" 10 5)
  /\ (forall t, In t ["string"; "number"; "integer"] ->
                dict_get d "type" = Some (JStr t) ->
                written_with_min d d' "maxLength" 100 20).

(** No bound grows, and a bound the limiter writes is within its
    ceiling. *)
Definition bounds_lowered (d d' : dict) : Prop :=
  forall k, is_bound_key k = true ->
    (forall x, dict_get d k = Some x -> numeric x = true ->
       exists y, dict_get d' k = Some y
                 /\ py_le y x = true
                 /\ (caps d k = true -> py_le y (JInt (ceiling k)) = true))
    /\ (dict_get d k = None -> caps d k = true ->
        exists y, dict_get d' k = Some y
                  /\ py_le y (JInt (ceiling k)) = true).

(** Containers are limited in place under any key, other entries stay, and
    no key comes or goes apart from the three bounds. *)
Definition framed (d d' : dict) : Prop :=
  (forall k v, dict_get d k = Some v -> is_container v = true ->
     exists v', limit_complexity v = Ok v' /\ dict_get d' k = Some v')
  /\ (forall k v, is_bound_key k = false -> dict_get d k = Some v ->
        is_container v = false -> dict_get d' k = Some v)
  /\ (forall k, In k (keys d) -> In k (keys d'))
  /\ (forall k, is_bound_key k = false -> In k (keys d') -> In k (keys d)).

(** The five type names the limiter reacts to. *)
Definition capped_types : list string :=
  ["array"; "object"; "string"; "number"; "integer"].

Definition exact_type (d : dict) : Prop :=
  exists t, In t capped_types /\ dict_get d "type" = Some (JStr t).

(** No bound is injected and no scalar bound is changed. *)
Definition uncapped (d d' : dict) : Prop :=
  forall k, is_bound_key k = true ->
    (dict_get d k = None -> dict_get d' k = None)
    /\ (forall v, dict_get d k = Some v -> is_container v = false ->
                  dict_get d' k = Some v).

(** Sample schemas. *)
Definition nested_schema : json :=
  JDict [("type", JStr "array"); ("maxItems", JInt 7);
         ("items", JDict [("maxLength", JInt 3); ("type", JStr "string")]);
         ("anyOf", JList [JDict [("type", JStr "object")]; JBool true])].

Definition nested_schema_limited : json :=
  JDict [("type", JStr "array"); ("maxItems", JInt 5);
         ("items", JDict [("maxLength", JInt 3); ("type", JStr "string")]);
         ("anyOf", JList [JDict [("type", JStr "object");
                                 ("maxProperties", JInt 5)]; JBool true])].

Definition union_schema : json :=
  JDict [("type", JList [JStr "array"; JStr "object"]);
         ("maxLength", JInt 70)].


(** ** A sample world

    Three paths are known to the file system; the strategy yields the
    one-element arrays [[0]], [[1]], [[2]], ...; the script rejects the
    array [[2]]. *)
Definition sample_files (path : string) : open_result :=
  if String.eqb path "schema.json" then Opened integer_schema_text
  else if String.eqb path "broken.json" then Opened "not json"
  else if String.eqb path "locked.json" then Refused
  else NotFound.

Definition sample_strategy (i : nat) : res json :=
  Ok (JList [JInt (Z.of_nat i)]).

Definition sample_script (argv : list string) (instance : json)
  : res completed :=
  match instance with
  | JList [JInt 2] =>
      Ok {| returncode := 1; stdout := "checked"; stderr := "too big" |}
  | _ => Ok {| returncode := 0; stdout := "checked"; stderr := "" |}
  end.

Definition sample_world : world :=
  {| fs_open := sample_files;
     json_decode := Decoder.loads;
     seed_random := fun _ => Ok tt;
     from_schema := fun _ => Ok sample_strategy;
     subprocess_run := sample_script |}.

(** ** Induction on JSON trees *)

Section JsonInduction.
Variable P : json -> Prop.
Hypothesis Hnull : P JNull.
Hypothesis Hbool : forall b, P (JBool b).
Hypothesis Hint : forall n, P (JInt n).
Hypothesis Hfloat : forall f, P (JFloat f).
Hypothesis Hstr : forall s, P (JStr s).
Hypothesis Hlist : forall l, Forall P l -> P (JList l).
Hypothesis Hdict : forall d, Forall (fun kv => P (snd kv)) d -> P (JDict d).

Fixpoint json_ind (v : json) : P v :=
  match v with
  | JNull => Hnull
  | JBool b => Hbool b
  | JInt n => Hint n
  | JFloat f => Hfloat f
  | JStr s => Hstr s
  | JList l =>
      Hlist l
        ((fix all (l : list json) : Forall P l :=
            match l with
            | [] => Forall_nil P
            | x :: l' => Forall_cons x (json_ind x) (all l')
            end) l)
  | JDict d =>
      Hdict d
        ((fix all (d : dict) : Forall (fun kv => P (snd kv)) d :=
            match d with
            | [] => Forall_nil _
            | kv :: d' => Forall_cons kv (json_ind (snd kv)) (all d')
            end) d)
  end.
End JsonInduction.

(** ** The state of the limiter's loop

    Entries the loop has not reached yet still hold the container the
    snapshot saw. *)
Definition pending (items cur : dict) : Prop :=
  forall k v, dict_get items k = Some v -> is_container v = true ->
              dict_get cur k = Some v.

(** What the loop has done to [cur] once [items] are visited. *)
Definition loop_post (rec : json -> res json) (items cur out : dict)
  : Prop :=
  match type_bound items with
  | Some (b, dflt, c) =>
      (exists m, py_min (dict_get_default cur b (JInt dflt)) c = Ok m
                 /\ dict_get out b = Some m)
      /\ forall k, k <> b -> dict_get out k = limited_entry rec items cur k
  | None => forall k, dict_get out k = limited_entry rec items cur k
  end.

(** ** Properties of the loader, as predicates *)

(** The error the loader raises itself. *)
Definition InvalidSchema (schema_input : string) : exn :=
  ValueError ("Invalid schema: " ++ schema_input).

(** Reading the argument as a path fails: there is no readable file, or
    its text is not JSON. *)
Definition file_reading_fails (w : world) (s : string) : Prop :=
  match fs_open w s with
  | Opened text => json_decode w text = None
  | NotFound | Refused => True
  end.

(** Reading the argument as a JSON literal fails. *)
Definition literal_reading_fails (w : world) (s : string) : Prop :=
  json_decode w s = None.

(** ** Properties of a run, as predicates *)

(** The script runs on the instance and returns 0. *)
Definition script_accepts (w : world) (script : string) (x : json) : Prop :=
  exists r, subprocess_run w [script; "testcase.json"] x = Ok r
            /\ returncode r = 0.

(** The script runs on the instance and returns [r] with a code other
    than 0. *)
Definition script_rejects (w : world) (script : string) (x : json)
    (r : completed) : Prop :=
  subprocess_run w [script; "testcase.json"] x = Ok r /\ returncode r <> 0.

(** What [test_instance] does with an instance the script rejects, up to
    the [raise]. *)
Definition rejection_report (script : string) (x : json) (r : completed)
  : list event :=
  [Stdout (GeneratedTestInstance x);
   FileWrite "testcase.json" x;
   Stdout (ExecutingScript script);
   Spawn [script; "testcase.json"];
   Stdout (ScriptFailedWith (stdout r) (stderr r))].

(** The generation library yields instances that conform to the schema it
    was given, as many as asked for. *)
Definition generates_conforming (w : world) (limited : json) : Prop :=
  exists strategy,
    from_schema w limited = Ok strategy
    /\ forall i, exists x, strategy i = Ok x
                           /\ Conform.conforms limited x = true.

Definition sample_arguments : arguments :=
  {| arg_schema := array_schema_text;
     arg_num := 10;
     arg_seed := None;
     arg_script := None |}.

Definition sample_script_arguments : arguments :=
  {| arg_schema := array_schema_text;
     arg_num := 10;
     arg_seed := Some 7;
     arg_script := Some "./check.sh" |}.

(** What [test_instance] does with an instance the script accepts. *)
Definition acceptance_report (script : string) (x : json) : list event :=
  [Stdout (GeneratedTestInstance x);
   FileWrite "testcase.json" x;
   Stdout (ExecutingScript script);
   Spawn [script; "testcase.json"];
   Stdout ScriptSucceeded].

Definition test_failed : exn := AssertionError "Test script failed".

(** The limited form of [array_schema]. *)
Definition array_schema_limited : json :=
  JDict [("type", JStr "array");
         ("items", JDict [("type", JStr "integer"); ("maxLength", JInt 20)]);
         ("maxItems", JInt 5)].

(** ** When the limiter returns

    [min] raises on a bound that is not a number, so the limiter returns
    exactly on the schemas in which every bound it is about to cap is a
    number or absent. *)
Definition bound_ok (d : dict) : bool :=
  match type_bound d with
  | Some (b, _, _) =>
      match dict_get d b with
      | Some v =>
          match Num.of_json v with
          | Some _ => true
          | None => false
          end
      | None => true
      end
  | None => true
  end.

Fixpoint bounds_ok (v : json) : bool :=
  match v with
  | JList l => forallb bounds_ok l
  | JDict d => bound_ok d && forallb (fun kv => bounds_ok (snd kv)) d
  | _ => true
  end.

(** ** Further observations of a run *)

(** The instances written to a file, in order. *)
Fixpoint file_writes (t : list event) : list (string * json) :=
  match t with
  | [] => []
  | FileWrite path content :: t' => (path, content) :: file_writes t'
  | _ :: t' => file_writes t'
  end.

(** The argument vectors of the processes started, in order. *)
Fixpoint spawns (t : list event) : list (list string) :=
  match t with
  | [] => []
  | Spawn argv :: t' => argv :: spawns t'
  | _ :: t' => spawns t'
  end.

(** The key the limiter appends to a dictionary: the bound its [type] asks
    for, when the dictionary does not have it yet. *)
Definition appended_key (d : dict) : list string :=
  match type_bound d with
  | Some (b, _, _) =>
      match dict_get d b with
      | Some _ => []
      | None => [b]
      end
  | None => []
  end.

(** ** JSON values up to the order of dictionary entries

    Two dictionaries are equal in Python when they hold equal values under
    the same keys, in whatever order. *)
Inductive opt_rel {A B : Type} (R : A -> B -> Prop)
  : option A -> option B -> Prop :=
| opt_rel_None : opt_rel R None None
| opt_rel_Some a b : R a b -> opt_rel R (Some a) (Some b).

Unset Elimination Schemes.
Inductive same_content : json -> json -> Prop :=
| same_scalar v : is_container v = false -> same_content v v
| same_list l l' :
    Forall2 same_content l l' -> same_content (JList l) (JList l')
| same_dict d d' :
    (forall k, opt_rel same_content (dict_get d k) (dict_get d' k)) ->
    same_content (JDict d) (JDict d').
Set Elimination Schemes.

(** [nested_schema] with the entries of its dictionaries in another
    order. *)
Definition nested_schema_reordered : json :=
  JDict [("anyOf", JList [JDict [("type", JStr "object")]; JBool true]);
         ("items", JDict [("type", JStr "string"); ("maxLength", JInt 3)]);
         ("maxItems", JInt 7); ("type", JStr "array")].

(** ** The discipline of a run

    What every part of a run keeps to, whatever the world does: each
    instance announced as a test instance is written to [testcase.json]
    and handed to the script under that name, nothing else is written or
    started, and neither the diagnostic stream nor the closing line of the
    [__main__] block is touched. *)
Definition orderly (script : string) (t : list event) : Prop :=
  file_writes t = map (fun x => ("testcase.json", x)) (tested_instances t)
  /\ spawns t = map (fun _ => [script; "testcase.json"]) (tested_instances t)
  /\ diagnostics t = []
  /\ ~ In (Stdout CompletedCLI) t.

(** The script of a run, if it has one. *)
Definition script_of (args : arguments) : string :=
  match truthy (arg_script args) with
  | Some script => script
  | None => ""
  end.

(** How the [__main__] block ends: after the closing line, after the
    error line of one of the two handlers of [main], or with an exception
    no handler took. *)
Inductive ending : list event -> res unit -> Prop :=
| ends_completed : ending [Stdout CompletedCLI] (Ok tt)
| ends_reported e : ending [Stderr (ErrorLine e)] (Raise (SystemExit 1))
| ends_uncaught e : ending [] (Raise e).

Definition sample_seed_arguments : arguments :=
  {| arg_schema := array_schema_text;
     arg_num := 3;
     arg_seed := Some 7;
     arg_script := Some "" |}.

(** A world whose seeding call raises. *)
Definition seedless_world : world :=
  {| fs_open := sample_files;
     json_decode := Decoder.loads;
     seed_random := fun _ => Raise (LibraryError "seed");
     from_schema := fun _ => Ok sample_strategy;
     subprocess_run := sample_script |}.
(** * Properties *)

(** ** Dictionaries *)

Ltac eqb_cases k1 k2 :=
  let E := fresh "E" in
  destruct (String.eqb_spec k1 k2) as [E | E]; [subst | ].

Lemma dict_get_set_same (d : dict) (k : string) (v : json) :
  dict_get (dict_set d k v) k = Some v.
Proof.
  induction d as [| [k' v'] d IH]; simpl.
  - now rewrite String.eqb_refl.
  - eqb_cases k' k; simpl.
    + now rewrite String.eqb_refl.
    + apply String.eqb_neq in E. now rewrite E.
Qed.

Lemma dict_get_set_other (d : dict) (k k0 : string) (v : json) :
  k <> k0 -> dict_get (dict_set d k v) k0 = dict_get d k0.
Proof.
  intros Hne. induction d as [| [k' v'] d IH]; simpl.
  - apply String.eqb_neq in Hne. now rewrite Hne.
  - eqb_cases k' k; simpl.
    + apply String.eqb_neq in Hne. now rewrite Hne.
    + now rewrite IH.
Qed.

(** Writing the value a key already holds changes nothing. *)
Lemma dict_set_same (d : dict) (k : string) (v : json) :
  dict_get d k = Some v -> dict_set d k v = d.
Proof.
  induction d as [| [k' v'] d IH]; simpl; [discriminate |].
  eqb_cases k' k.
  - now intros [= ->].
  - intros H. now rewrite IH.
Qed.

Lemma dict_get_In (d : dict) (k : string) (v : json) :
  dict_get d k = Some v -> In (k, v) d.
Proof.
  induction d as [| [k' v'] d IH]; simpl; [discriminate |].
  eqb_cases k' k.
  - intros [= ->]. now left.
  - intros H. right. now apply IH.
Qed.

Lemma dict_get_None (d : dict) (k : string) :
  dict_get d k = None <-> ~ In k (map fst d).
Proof.
  induction d as [| [k' v'] d IH]; simpl.
  - tauto.
  - eqb_cases k' k.
    + split; [discriminate | intros H; exfalso; apply H; now left].
    + rewrite IH. tauto.
Qed.

Lemma distinct_NoDup (ks : list string) :
  distinct ks = true <-> NoDup ks.
Proof.
  induction ks as [| k ks IH]; simpl.
  - split; [constructor | reflexivity].
  - rewrite andb_true_iff, negb_true_iff, IH. split.
    + intros [Hn Hd]. constructor; [| exact Hd].
      intros Hin.
      assert (existsb (String.eqb k) ks = true) as Hex
        by (apply existsb_exists; exists k; split;
            [exact Hin | apply String.eqb_refl]).
      congruence.
    + intros Hnd. inversion Hnd as [| ? ? Hn Hd]; subst. split; [| exact Hd].
      destruct (existsb (String.eqb k) ks) eqn:Hex; [| reflexivity].
      apply existsb_exists in Hex as (k' & Hin & Heq).
      apply String.eqb_eq in Heq. subst. contradiction.
Qed.

Lemma In_dict_get (d : dict) (k : string) (v : json) :
  NoDup (map fst d) -> In (k, v) d -> dict_get d k = Some v.
Proof.
  induction d as [| [k' v'] d IH]; simpl; [tauto |].
  intros Hnd [Heq | Hin].
  - injection Heq as -> ->. now rewrite String.eqb_refl.
  - inversion Hnd as [| ? ? Hn Hd]; subst.
    eqb_cases k' k.
    + exfalso. apply Hn. change k with (fst (k, v)). now apply in_map.
    + now apply IH.
Qed.

Lemma dict_set_keys (d : dict) (k : string) (v : json) :
  map fst (dict_set d k v)
  = match dict_get d k with
    | Some _ => map fst d
    | None => (map fst d ++ [k])%list
    end.
Proof.
  induction d as [| [k' v'] d IH]; simpl; [reflexivity |].
  eqb_cases k' k; simpl; [reflexivity |].
  rewrite IH. now destruct (dict_get d k).
Qed.

Lemma dict_set_NoDup (d : dict) (k : string) (v : json) :
  NoDup (map fst d) -> NoDup (map fst (dict_set d k v)).
Proof.
  intros Hnd. rewrite dict_set_keys.
  destruct (dict_get d k) eqn:Hg; [exact Hnd |].
  apply dict_get_None in Hg.
  apply NoDup_app; [exact Hnd | repeat constructor; simpl; tauto |].
  intros x Hx [<- | []]. contradiction.
Qed.


(** ** Python's [min] against an [int] literal *)

Lemma scaled_self (n : Z) : Num.scaled n 0 (Z.min 0 0) = n.
Proof. unfold Num.scaled. simpl. lia. Qed.

Lemma py_min_inv (x : json) (c : Z) (m : json) :
  py_min x c = Ok m ->
  exists a, Num.of_json x = Some a
            /\ m = if Num.ltb (Num.XDy c 0) a then JInt c else x.
Proof.
  unfold py_min. destruct (Num.of_json x) as [a |]; [| discriminate].
  intros [= <-]. now exists a.
Qed.

(** On integers it is the minimum of the two. *)
Lemma py_min_int (z c : Z) : py_min (JInt z) c = Ok (JInt (Z.min z c)).
Proof.
  unfold py_min. simpl. rewrite !scaled_self.
  destruct (Z.ltb_spec c z); f_equal; f_equal; lia.
Qed.

(** A value that [min] returned is returned again. *)
Lemma py_min_idem (x : json) (c : Z) (m : json) :
  py_min x c = Ok m -> py_min m c = Ok m.
Proof.
  intros H. destruct (py_min_inv _ _ _ H) as (a & Ha & ->).
  destruct (Num.ltb (Num.XDy c 0) a) eqn:Hlt.
  - rewrite py_min_int. f_equal. f_equal. lia.
  - unfold py_min. now rewrite Ha, Hlt.
Qed.

Lemma of_json_scalar (x : json) (a : Num.xreal) :
  Num.of_json x = Some a -> is_container x = false.
Proof. destruct x; simpl; congruence. Qed.

Lemma py_min_scalar (x : json) (c : Z) (m : json) :
  py_min x c = Ok m -> is_container m = false.
Proof.
  intros H. destruct (py_min_inv _ _ _ H) as (a & Ha & ->).
  destruct (Num.ltb _ _); [reflexivity | eauto using of_json_scalar].
Qed.

Lemma py_min_container (x : json) (c : Z) :
  is_container x = true -> py_min x c = Raise TypeError.
Proof. destruct x; simpl; try discriminate; reflexivity. Qed.


Lemma leb_refl (a : Num.xreal) : Num.is_nan a = false -> Num.leb a a = true.
Proof.
  destruct a as [| [|] | n e]; simpl; try reflexivity; try discriminate.
  intros _. apply Z.leb_refl.
Qed.

Lemma ltb_leb (a b : Num.xreal) : Num.ltb a b = true -> Num.leb a b = true.
Proof.
  destruct a as [| [|] | n1 e1], b as [| [|] | n2 e2]; simpl;
    try reflexivity; try discriminate.
  intros H. apply Z.ltb_lt in H. apply Z.leb_le. lia.
Qed.

Lemma not_ltb_leb (a b : Num.xreal) :
  Num.is_nan a = false -> Num.is_nan b = false ->
  Num.ltb a b = false -> Num.leb b a = true.
Proof.
  destruct a as [| [|] | n1 e1], b as [| [|] | n2 e2]; simpl;
    try reflexivity; try discriminate.
  intros _ _ H. apply Z.ltb_ge in H. apply Z.leb_le.
  now rewrite (Z.min_comm e2 e1).
Qed.

(** The value [min] returns is at most both of its arguments. *)
Lemma py_min_le (x : json) (c : Z) (m : json) :
  numeric x = true -> py_min x c = Ok m ->
  py_le m x = true /\ py_le m (JInt c) = true.
Proof.
  intros Hnum H. destruct (py_min_inv _ _ _ H) as (a & Ha & ->).
  unfold numeric in Hnum. rewrite Ha in Hnum. apply negb_true_iff in Hnum.
  unfold py_le. destruct (Num.ltb (Num.XDy c 0) a) eqn:Hlt.
  - rewrite Ha. simpl Num.of_json. split.
    + now apply ltb_leb.
    + now apply leb_refl.
  - rewrite Ha. simpl Num.of_json. split.
    + now apply leb_refl.
    + now apply not_ltb_leb.
Qed.

(** NaN compares with nothing, so [min] hands it back. *)
Remark py_min_nan (c : Z) :
  py_min (JFloat S754_nan) c = Ok (JFloat S754_nan).
Proof. reflexivity. Qed.

(** ** The loop of the limiter *)

Lemma trigger_key k v t : trigger k v = Some t -> k = "type".
Proof.
  unfold trigger. destruct (String.eqb_spec k "type"); [auto | discriminate].
Qed.

Lemma py_in_strs_scalar v ss : py_in_strs v ss = true -> is_container v = false.
Proof.
  unfold py_in_strs. intros H. apply existsb_exists in H as (s & _ & H).
  destruct v; simpl in *; congruence.
Qed.

Lemma trigger_scalar k v t : trigger k v = Some t -> is_container v = false.
Proof.
  unfold trigger. destruct (String.eqb k "type"); [| discriminate].
  destruct (py_eq_str v "array") eqn:E1;
    [destruct v; simpl in *; congruence |].
  destruct (py_eq_str v "object") eqn:E2;
    [destruct v; simpl in *; congruence |].
  destruct (py_in_strs v _) eqn:E3; [| discriminate].
  intros _. eauto using py_in_strs_scalar.
Qed.

Lemma trigger_bound_key k v b dflt c :
  trigger k v = Some (b, dflt, c) ->
  is_bound_key b = true /\ c = ceiling b /\ b <> "type".
Proof.
  unfold trigger. destruct (String.eqb k "type"); [| discriminate].
  destruct (py_eq_str v "array");
    [intros [= <- <- <-]; repeat split; discriminate |].
  destruct (py_eq_str v "object");
    [intros [= <- <- <-]; repeat split; discriminate |].
  destruct (py_in_strs v _);
    [intros [= <- <- <-]; repeat split; discriminate | discriminate].
Qed.

Lemma dict_loop_cons rec key value rest schema :
  dict_loop rec ((key, value) :: rest) schema
  = match trigger key value with
    | Some (b, dflt, c) =>
        m <- py_min (dict_get_default schema b (JInt dflt)) c ;;
        dict_loop rec rest (dict_set schema b m)
    | None =>
        if is_container value then
          v' <- rec value ;; dict_loop rec rest (dict_set schema key v')
        else dict_loop rec rest schema
    end.
Proof.
  unfold trigger. cbn [dict_loop].
  destruct (String.eqb key "type"); cbn [andb]; [| reflexivity].
  destruct (py_eq_str value "array"); [reflexivity |].
  destruct (py_eq_str value "object"); [reflexivity |].
  destruct (py_in_strs value _); reflexivity.
Qed.

Lemma dict_get_cons (k' : string) (v : json) (rest : dict) (k : string) :
  dict_get ((k', v) :: rest) k
  = if String.eqb k' k then Some v else dict_get rest k.
Proof. reflexivity. Qed.

Lemma limited_entry_cons rec key value rest cur k :
  limited_entry rec ((key, value) :: rest) cur k
  = if String.eqb key k then
      if is_container value then
        match rec value with Ok v' => Some v' | Raise _ => None end
      else dict_get cur k
    else limited_entry rec rest cur k.
Proof. unfold limited_entry. simpl. now destruct (String.eqb key k). Qed.

Lemma limited_entry_absent rec items cur k :
  dict_get items k = None -> limited_entry rec items cur k = dict_get cur k.
Proof. unfold limited_entry. now intros ->. Qed.

Lemma limited_entry_frame rec items cur cur' k :
  dict_get cur' k = dict_get cur k ->
  limited_entry rec items cur' k = limited_entry rec items cur k.
Proof. unfold limited_entry. now intros ->. Qed.

Lemma NoDup_head_absent (key : string) (value : json) (rest : dict) :
  NoDup (map fst ((key, value) :: rest)) -> dict_get rest key = None.
Proof.
  simpl. intros H. inversion H; subst. now apply dict_get_None.
Qed.

Section Loop.
Variable rec : json -> res json.
Hypothesis rec_container :
  forall v v', is_container v = true -> rec v = Ok v' ->
               is_container v' = true.

Lemma pending_tail key value rest cur :
  NoDup (map fst ((key, value) :: rest)) ->
  pending ((key, value) :: rest) cur -> pending rest cur.
Proof.
  intros Hnd Hp k v Hg Hc. apply Hp; [| exact Hc]. rewrite dict_get_cons.
  eqb_cases key k; [| exact Hg].
  rewrite (NoDup_head_absent _ _ _ Hnd) in Hg. discriminate.
Qed.

Lemma pending_set items cur k0 v0 :
  dict_get items k0 = None -> pending items cur ->
  pending items (dict_set cur k0 v0).
Proof.
  intros Hk Hp k v Hg Hc.
  destruct (String.eqb_spec k0 k) as [-> | Hne]; [congruence |].
  rewrite dict_get_set_other by exact Hne. now apply Hp.
Qed.

Lemma type_bound_absent items :
  dict_get items "type" = None -> type_bound items = None.
Proof. unfold type_bound. now intros ->. Qed.

Lemma loop_spec :
  forall items cur out,
    NoDup (map fst items) -> pending items cur ->
    dict_loop rec items cur = Ok out ->
    (forall k v, dict_get items k = Some v -> is_container v = true ->
                 exists v', rec v = Ok v')
    /\ loop_post rec items cur out.
Proof.
  induction items as [| [key value] rest IH]; intros cur out Hnd Hp Hrun.
  - simpl in Hrun. inversion Hrun; subst out.
    split; [intros k v Hg; discriminate Hg |].
    unfold loop_post, type_bound. intros k. reflexivity.
  - assert (Hrest : NoDup (map fst rest)) by (now inversion Hnd).
    pose proof (NoDup_head_absent _ _ _ Hnd) as Habs.
    pose proof (pending_tail _ _ _ _ Hnd Hp) as Hp'.
    rewrite dict_loop_cons in Hrun.
    destruct (trigger key value) as [[[b dflt] c] |] eqn:Htr.
    + (* the [type] entry asks for a bound *)
      pose proof (trigger_key _ _ _ Htr) as ->.
      pose proof (trigger_scalar _ _ _ Htr) as Hsc.
      destruct (trigger_bound_key _ _ _ _ _ Htr) as (_ & _ & Hb).
      destruct (py_min _ c) as [m |] eqn:Hmin; [| discriminate].
      simpl in Hrun.
      assert (Hnb : forall v, dict_get rest b = Some v ->
                              is_container v = false).
      { intros v Hg. destruct (is_container v) eqn:Hc; [| reflexivity].
        exfalso. specialize (Hp' _ _ Hg Hc).
        unfold dict_get_default in Hmin. rewrite Hp' in Hmin.
        rewrite py_min_container in Hmin by exact Hc. discriminate. }
      assert (Hp2 : pending rest (dict_set cur b m)).
      { intros k v Hg Hc. destruct (String.eqb_spec b k) as [-> | Hne].
        - rewrite (Hnb _ Hg) in Hc. discriminate.
        - rewrite dict_get_set_other by exact Hne. now apply Hp'. }
      destruct (IH _ _ Hrest Hp2 Hrun) as [Hok Hpost].
      unfold loop_post in Hpost.
      rewrite (type_bound_absent _ Habs) in Hpost.
      split.
      * intros k v Hg Hc. rewrite dict_get_cons in Hg. revert Hg.
        eqb_cases "type" k; intros Hg.
        -- injection Hg as ->. congruence.
        -- eauto.
      * unfold loop_post, type_bound.
        rewrite dict_get_cons, String.eqb_refl, Htr. split.
        -- exists m. split; [exact Hmin |]. rewrite Hpost.
           unfold limited_entry. destruct (dict_get rest b) as [v |] eqn:Hg.
           ++ rewrite (Hnb _ eq_refl). apply dict_get_set_same.
           ++ apply dict_get_set_same.
        -- intros k Hk. rewrite Hpost, limited_entry_cons.
           eqb_cases "type" k.
           ++ rewrite Hsc, limited_entry_absent by exact Habs.
              apply dict_get_set_other. congruence.
           ++ apply limited_entry_frame, dict_get_set_other. congruence.
    + destruct (is_container value) eqn:Hc.
      * (* a nested container is limited in place *)
        destruct (rec value) as [v' |] eqn:Hv; [| discriminate].
        simpl in Hrun.
        pose proof (rec_container _ _ Hc Hv) as Hc'.
        pose proof (pending_set _ _ key v' Habs Hp') as Hp2.
        destruct (IH _ _ Hrest Hp2 Hrun) as [Hok Hpost].
        split.
        -- intros k v Hg Hcv. rewrite dict_get_cons in Hg. revert Hg.
           eqb_cases key k; intros Hg.
           ++ injection Hg as <-. eauto.
           ++ eauto.
        -- assert (Hle : forall k,
                     limited_entry rec rest (dict_set cur key v') k
                     = limited_entry rec ((key, value) :: rest) cur k).
           { intros k. rewrite limited_entry_cons. eqb_cases key k.
             - rewrite Hc, Hv, limited_entry_absent by exact Habs.
               apply dict_get_set_same.
             - apply limited_entry_frame, dict_get_set_other. exact E. }
           unfold loop_post in *. unfold type_bound in *.
           rewrite dict_get_cons.
           eqb_cases key "type".
           ++ rewrite Htr. rewrite Habs in Hpost.
              intros k. now rewrite Hpost.
           ++ destruct (dict_get rest "type") as [tv |];
                [| intros k; now rewrite Hpost].
              destruct (trigger "type" tv) as [[[b dflt] c] |];
                [| intros k; now rewrite Hpost].
              destruct Hpost as [(m & Hm & Hout) Hothers].
              assert (key <> b) as Hkb.
              { intros ->. unfold dict_get_default in Hm.
                rewrite dict_get_set_same, py_min_container in Hm
                  by exact Hc'. discriminate. }
              split.
              ** exists m. split; [| exact Hout].
                 unfold dict_get_default in *.
                 now rewrite dict_get_set_other in Hm by exact Hkb.
              ** intros k Hk. now rewrite Hothers.
      * (* a scalar entry is left alone *)
        destruct (IH _ _ Hrest Hp' Hrun) as [Hok Hpost].
        split.
        -- intros k v Hg Hcv. rewrite dict_get_cons in Hg. revert Hg.
           eqb_cases key k; intros Hg.
           ++ injection Hg as <-. congruence.
           ++ eauto.
        -- assert (Hle : forall k,
                     limited_entry rec rest cur k
                     = limited_entry rec ((key, value) :: rest) cur k).
           { intros k. rewrite limited_entry_cons. eqb_cases key k.
             - rewrite Hc. now apply limited_entry_absent.
             - reflexivity. }
           unfold loop_post in *. unfold type_bound in *.
           rewrite dict_get_cons.
           eqb_cases key "type".
           ++ rewrite Htr. rewrite Habs in Hpost.
              intros k. now rewrite Hpost.
           ++ destruct (dict_get rest "type") as [tv |];
                [| intros k; now rewrite Hpost].
              destruct (trigger "type" tv) as [[[b dflt] c] |];
                [| intros k; now rewrite Hpost].
              destruct Hpost as [Hm Hothers].
              split; [exact Hm |].
              intros k Hk. now rewrite Hothers.
Qed.
End Loop.

(** ** The limiter on lists and dictionaries *)

Lemma rbind_Ok {A B} (m : res A) (f : A -> res B) (b : B) :
  rbind m f = Ok b -> exists a, m = Ok a /\ f a = Ok b.
Proof. destruct m as [a | e]; simpl; [eauto | discriminate]. Qed.

Lemma list_comp_Forall2 (rec : json -> res json) (l l' : list json) :
  list_comp rec l = Ok l' <-> Forall2 (fun v v' => rec v = Ok v') l l'.
Proof.
  revert l'. induction l as [| x l IH]; intros l'; simpl.
  - split.
    + intros [= <-]. constructor.
    + intros H. inversion H. reflexivity.
  - split.
    + intros H. apply rbind_Ok in H as (v & Hv & H).
      apply rbind_Ok in H as (vs & Hvs & H). injection H as <-.
      constructor; [exact Hv | now apply IH].
    + intros H. inversion H as [| ? v ? vs Hv Hvs]; subst.
      rewrite Hv. simpl. apply IH in Hvs. now rewrite Hvs.
Qed.

Lemma Forall2_nth_error_l {A B} (R : A -> B -> Prop) (l : list A)
    (l' : list B) (i : nat) (x : A) :
  Forall2 R l l' -> nth_error l i = Some x ->
  exists y, nth_error l' i = Some y /\ R x y.
Proof.
  intros H. revert i. induction H as [| a b l l' Hab _ IH]; intros i.
  - destruct i; discriminate.
  - destruct i as [| i]; simpl.
    + intros [= <-]. eauto.
    + apply IH.
Qed.

Lemma limit_complexity_list (l : list json) :
  limit_complexity (JList l)
  = (l' <- list_comp limit_complexity l ;; Ok (JList l')).
Proof. reflexivity. Qed.

Lemma limit_complexity_dict (d : dict) :
  limit_complexity (JDict d)
  = (d' <- dict_loop limit_complexity d d ;; Ok (JDict d')).
Proof. reflexivity. Qed.

Lemma limit_complexity_scalar (v : json) :
  is_container v = false -> limit_complexity v = Ok v.
Proof. destruct v; simpl; congruence. Qed.

Lemma limit_complexity_container (v v' : json) :
  is_container v = true -> limit_complexity v = Ok v' ->
  is_container v' = true.
Proof.
  destruct v; try discriminate; intros _.
  - rewrite limit_complexity_list. intros H.
    apply rbind_Ok in H as (l' & _ & [= <-]). reflexivity.
  - rewrite limit_complexity_dict. intros H.
    apply rbind_Ok in H as (d' & _ & [= <-]). reflexivity.
Qed.

Lemma wf_dict (d : dict) :
  wf (JDict d) = true ->
  NoDup (map fst d) /\ forall k v, In (k, v) d -> wf v = true.
Proof.
  simpl. rewrite andb_true_iff, distinct_NoDup, forallb_forall.
  intros [Hnd Hall]. split; [exact Hnd |].
  intros k v Hin. exact (Hall _ Hin).
Qed.

Lemma wf_list (l : list json) :
  wf (JList l) = true -> forall v, In v l -> wf v = true.
Proof. simpl. rewrite forallb_forall. auto. Qed.

Lemma wf_at_path (p : list step) :
  forall T n, wf T = true -> at_path p T = Some n -> wf n = true.
Proof.
  induction p as [| [k | i] p IH]; intros T n Hwf; simpl.
  - now intros [= <-].
  - destruct T; try discriminate.
    destruct (dict_get d k) as [v |] eqn:Hg; [| discriminate].
    apply IH. apply wf_dict in Hwf as [_ Hall].
    eauto using dict_get_In.
  - destruct T; try discriminate.
    destruct (nth_error l i) as [v |] eqn:Hg; [| discriminate].
    apply IH. eapply wf_list; eauto using nth_error_In.
Qed.

(** What a successful run on a dictionary leaves behind. *)
Lemma limit_dict_spec (d : dict) (r : json) :
  wf (JDict d) = true -> limit_complexity (JDict d) = Ok r ->
  exists d',
    r = JDict d'
    /\ dict_loop limit_complexity d d = Ok d'
    /\ (forall k v, dict_get d k = Some v -> is_container v = true ->
                    exists v', limit_complexity v = Ok v')
    /\ loop_post limit_complexity d d d'.
Proof.
  intros Hwf H. rewrite limit_complexity_dict in H.
  apply rbind_Ok in H as (d' & Hloop & [= <-]).
  exists d'. split; [reflexivity |]. split; [exact Hloop |].
  apply wf_dict in Hwf as [Hnd _].
  apply (loop_spec _ limit_complexity_container _ _ _ Hnd); [| exact Hloop].
  intros k v Hg _. exact Hg.
Qed.

(** The bound a [type] entry asks for is written with [min]. *)
Lemma limit_dict_bound (d d' : dict) (b : string) (dflt c : Z) :
  wf (JDict d) = true -> limit_complexity (JDict d) = Ok (JDict d') ->
  type_bound d = Some (b, dflt, c) ->
  exists m, py_min (dict_get_default d b (JInt dflt)) c = Ok m
            /\ dict_get d' b = Some m.
Proof.
  intros Hwf H Htb.
  destruct (limit_dict_spec _ _ Hwf H) as (d0 & [= <-] & _ & _ & Hpost).
  unfold loop_post in Hpost. rewrite Htb in Hpost. apply Hpost.
Qed.

(** A nested container is replaced by its limited form, under any key. *)
Lemma limit_dict_container (d d' : dict) (k : string) (v : json) :
  wf (JDict d) = true -> limit_complexity (JDict d) = Ok (JDict d') ->
  dict_get d k = Some v -> is_container v = true ->
  exists v', limit_complexity v = Ok v' /\ dict_get d' k = Some v'.
Proof.
  intros Hwf H Hg Hc.
  destruct (limit_dict_spec _ _ Hwf H) as (d0 & [= <-] & _ & Hok & Hpost).
  destruct (Hok _ _ Hg Hc) as [v' Hv']. exists v'. split; [exact Hv' |].
  assert (Hle : limited_entry limit_complexity d d k = Some v')
    by (unfold limited_entry; now rewrite Hg, Hc, Hv').
  unfold loop_post in Hpost.
  destruct (type_bound d) as [[[b dflt] c] |]; [| now rewrite Hpost].
  destruct Hpost as [(m & Hm & _) Hothers].
  destruct (String.eqb_spec k b) as [-> | Hne]; [| now rewrite Hothers].
  unfold dict_get_default in Hm.
  rewrite Hg, py_min_container in Hm by exact Hc. discriminate.
Qed.

(** An entry that is neither a container nor the capped bound stays. *)
Lemma limit_dict_scalar (d d' : dict) (k : string) (v : json) :
  wf (JDict d) = true -> limit_complexity (JDict d) = Ok (JDict d') ->
  dict_get d k = Some v -> is_container v = false ->
  (forall dflt c, type_bound d <> Some (k, dflt, c)) ->
  dict_get d' k = Some v.
Proof.
  intros Hwf H Hg Hc Hnb.
  destruct (limit_dict_spec _ _ Hwf H) as (d0 & [= <-] & _ & _ & Hpost).
  assert (Hle : limited_entry limit_complexity d d k = Some v)
    by (unfold limited_entry; now rewrite Hg, Hc).
  unfold loop_post in Hpost.
  destruct (type_bound d) as [[[b dflt] c] |]; [| now rewrite Hpost].
  destruct Hpost as [_ Hothers]. rewrite Hothers; [exact Hle |].
  intros ->. now apply (Hnb dflt c).
Qed.

(** A key the dictionary lacks appears only as the capped bound. *)
Lemma limit_dict_absent (d d' : dict) (k : string) :
  wf (JDict d) = true -> limit_complexity (JDict d) = Ok (JDict d') ->
  dict_get d k = None ->
  (forall dflt c, type_bound d <> Some (k, dflt, c)) ->
  dict_get d' k = None.
Proof.
  intros Hwf H Hg Hnb.
  destruct (limit_dict_spec _ _ Hwf H) as (d0 & [= <-] & _ & _ & Hpost).
  assert (Hle : limited_entry limit_complexity d d k = None)
    by (unfold limited_entry; now rewrite Hg).
  unfold loop_post in Hpost.
  destruct (type_bound d) as [[[b dflt] c] |]; [| now rewrite Hpost].
  destruct Hpost as [_ Hothers]. rewrite Hothers; [exact Hle |].
  intros ->. now apply (Hnb dflt c).
Qed.

(** The node at a path of the input and the node at the same path of the
    output: the second is the first, limited. *)
Lemma limit_at_path (p : list step) :
  forall T T' n,
    wf T = true -> limit_complexity T = Ok T' ->
    at_path p T = Some n -> is_container n = true ->
    exists n', at_path p T' = Some n' /\ limit_complexity n = Ok n'.
Proof.
  induction p as [| s p IH]; intros T T' n Hwf HT Hn Hc.
  - injection Hn as <-. exists T'. split; [reflexivity | exact HT].
  - assert (Hsub : forall v, at_path p v = Some n -> is_container v = true).
    { intros v Hv. destruct p as [| [k | i] p'].
      - injection Hv as <-. exact Hc.
      - destruct v; try discriminate Hv; reflexivity.
      - destruct v; try discriminate Hv; reflexivity. }
    destruct s as [k | i]; simpl in Hn.
    + destruct T as [| | | | | | d]; try discriminate.
      destruct (dict_get d k) as [v |] eqn:Hg; [| discriminate].
      destruct (limit_dict_spec _ _ Hwf HT) as (d' & -> & _).
      destruct (limit_dict_container _ _ _ _ Hwf HT Hg (Hsub _ Hn))
        as (v' & Hv' & Hg').
      assert (Hwv : wf v = true).
      { apply wf_dict in Hwf as [_ Hall]. eauto using dict_get_In. }
      destruct (IH _ _ _ Hwv Hv' Hn Hc) as (n' & Hn' & Hlim).
      exists n'. simpl. rewrite Hg'. auto.
    + destruct T as [| | | | | l |]; try discriminate.
      destruct (nth_error l i) as [v |] eqn:Hg; [| discriminate].
      rewrite limit_complexity_list in HT.
      apply rbind_Ok in HT as (l' & Hl' & [= <-]).
      apply list_comp_Forall2 in Hl'.
      destruct (Forall2_nth_error_l _ _ _ _ _ Hl' Hg) as (v' & Hg' & Hv').
      assert (Hwv : wf v = true)
        by (eapply wf_list; eauto using nth_error_In).
      destruct (IH _ _ _ Hwv Hv' Hn Hc) as (n' & Hn' & Hlim).
      exists n'. simpl. rewrite Hg'. auto.
Qed.

(** The same for a dictionary node. *)
Lemma limit_at_dict (p : list step) (T T' : json) (d : dict) :
  wf T = true -> limit_complexity T = Ok T' ->
  at_path p T = Some (JDict d) ->
  exists d', at_path p T' = Some (JDict d')
             /\ wf (JDict d) = true
             /\ limit_complexity (JDict d) = Ok (JDict d').
Proof.
  intros Hwf HT Hn.
  destruct (limit_at_path p _ _ _ Hwf HT Hn eq_refl) as (n' & Hn' & Hlim).
  pose proof (wf_at_path _ _ _ Hwf Hn) as Hwd.
  destruct (limit_dict_spec _ _ Hwd Hlim) as (d' & -> & _).
  exists d'. auto.
Qed.

(** ** Applying the limiter twice *)

Lemma dict_loop_NoDup (rec : json -> res json) (items : dict) :
  forall cur out,
    NoDup (map fst cur) -> dict_loop rec items cur = Ok out ->
    NoDup (map fst out).
Proof.
  induction items as [| [key value] rest IH]; intros cur out Hnd.
  - simpl. now intros [= <-].
  - rewrite dict_loop_cons.
    destruct (trigger key value) as [[[b dflt] c] |].
    + intros H. apply rbind_Ok in H as (m & _ & H).
      eapply IH; [| exact H]. now apply dict_set_NoDup.
    + destruct (is_container value).
      * intros H. apply rbind_Ok in H as (v' & _ & H).
        eapply IH; [| exact H]. now apply dict_set_NoDup.
      * now apply IH.
Qed.

(** A loop whose every write stores what is already there returns the
    dictionary it started from. *)
Lemma dict_loop_fixed (rec : json -> res json) (cur : dict) :
  forall items,
    (forall k v, In (k, v) items ->
       match trigger k v with
       | Some (b, dflt, c) =>
           exists m, py_min (dict_get_default cur b (JInt dflt)) c = Ok m
                     /\ dict_get cur b = Some m
       | None =>
           is_container v = true -> rec v = Ok v /\ dict_get cur k = Some v
       end) ->
    dict_loop rec items cur = Ok cur.
Proof.
  induction items as [| [key value] rest IH]; intros Hall; [reflexivity |].
  rewrite dict_loop_cons.
  pose proof (Hall key value (or_introl eq_refl)) as Hhead.
  assert (Hrest : dict_loop rec rest cur = Ok cur)
    by (apply IH; intros k v Hin; apply Hall; now right).
  destruct (trigger key value) as [[[b dflt] c] |].
  - destruct Hhead as (m & -> & Hm). simpl.
    now rewrite (dict_set_same _ _ _ Hm).
  - destruct (is_container value); [| exact Hrest].
    destruct (Hhead eq_refl) as [-> Hg]. simpl.
    now rewrite (dict_set_same _ _ _ Hg).
Qed.

Lemma type_bound_trigger (d : dict) (v : json) :
  dict_get d "type" = Some v -> type_bound d = trigger "type" v.
Proof. unfold type_bound. now intros ->. Qed.

Lemma limit_complexity_fixed :
  forall T, wf T = true ->
            forall T', limit_complexity T = Ok T' ->
                       limit_complexity T' = Ok T'.
Proof.
  induction T as [| | | | | l IH | d IH] using json_ind; intros Hwf T' HT;
    try (simpl in HT; injection HT as <-; reflexivity).
  - (* lists: element by element *)
    rewrite limit_complexity_list in HT.
    apply rbind_Ok in HT as (l' & Hl' & [= <-]).
    apply list_comp_Forall2 in Hl'.
    rewrite limit_complexity_list.
    assert (Hfix : list_comp limit_complexity l' = Ok l').
    { apply list_comp_Forall2.
      pose proof (wf_list _ Hwf) as Hall. clear Hwf.
      induction Hl' as [| v v' l l' Hv _ IHl]; constructor.
      - inversion IH; subst. apply (H1 (Hall _ (or_introl eq_refl)) _ Hv).
      - inversion IH; subst. apply IHl; [assumption |].
        intros x Hx. apply Hall. now right. }
    now rewrite Hfix.
  - (* dictionaries: the second pass rewrites every entry with itself *)
    destruct (limit_dict_spec _ _ Hwf HT) as (d' & -> & Hloop & _ & _).
    pose proof (wf_dict _ Hwf) as [Hnd Hsub].
    pose proof (dict_loop_NoDup _ _ _ _ Hnd Hloop) as Hnd'.
    rewrite limit_complexity_dict.
    assert (Hfix : dict_loop limit_complexity d' d' = Ok d').
    { apply dict_loop_fixed. intros k v' Hin.
      pose proof (In_dict_get _ _ _ Hnd' Hin) as Hg'.
      destruct (trigger k v') as [[[b dflt] c] |] eqn:Htr.
      - pose proof (trigger_key _ _ _ Htr) as ->.
        pose proof (trigger_scalar _ _ _ Htr) as Hsc.
        destruct (trigger_bound_key _ _ _ _ _ Htr) as (_ & _ & Hb).
        assert (Hg : dict_get d "type" = Some v').
        { destruct (dict_get d "type") as [v |] eqn:Hg.
          - destruct (is_container v) eqn:Hc.
            + destruct (limit_dict_container _ _ _ _ Hwf HT Hg Hc)
                as (v'' & Hv'' & Hg'').
              pose proof (limit_complexity_container _ _ Hc Hv'').
              congruence.
            + assert (Hnot : forall dflt c,
                         type_bound d <> Some ("type", dflt, c)).
              { intros dflt0 c0. rewrite (type_bound_trigger _ _ Hg).
                intros Ht. apply trigger_bound_key in Ht. tauto. }
              pose proof (limit_dict_scalar _ _ _ _ Hwf HT Hg Hc Hnot).
              congruence.
          - assert (Hnot : forall dflt c,
                       type_bound d <> Some ("type", dflt, c))
              by (intros dflt0 c0; unfold type_bound; rewrite Hg;
                  discriminate).
            pose proof (limit_dict_absent _ _ _ Hwf HT Hg Hnot).
            congruence. }
        rewrite <- (type_bound_trigger _ _ Hg) in Htr.
        destruct (limit_dict_bound _ _ _ _ _ Hwf HT Htr) as (m & Hm & Hgm).
        exists m. split; [| exact Hgm].
        unfold dict_get_default. rewrite Hgm. eauto using py_min_idem.
      - intros Hc'.
        assert (Hcap : forall b dflt c m,
                   type_bound d = Some (b, dflt, c) ->
                   dict_get d' b = Some m -> is_container m = false).
        { intros b dflt c m Htb Hgm.
          destruct (limit_dict_bound _ _ _ _ _ Hwf HT Htb) as (m' & Hm' & Hg0).
          assert (m = m') as -> by congruence.
          eauto using py_min_scalar. }
        assert (Hnot : forall dflt c, type_bound d <> Some (k, dflt, c)).
        { intros dflt c Htb.
          pose proof (Hcap _ _ _ _ Htb Hg'). congruence. }
        split; [| exact Hg'].
        destruct (dict_get d k) as [v |] eqn:Hg.
        + destruct (is_container v) eqn:Hc.
          * destruct (limit_dict_container _ _ _ _ Hwf HT Hg Hc)
              as (v'' & Hv'' & Hg'').
            assert (v'' = v') as -> by congruence.
            rewrite Forall_forall in IH.
            apply (IH (k, v) (dict_get_In _ _ _ Hg)); [| exact Hv''].
            eauto using dict_get_In.
          * pose proof (limit_dict_scalar _ _ _ _ Hwf HT Hg Hc Hnot).
            congruence.
        + pose proof (limit_dict_absent _ _ _ Hwf HT Hg Hnot).
          congruence. }
    now rewrite Hfix.
Qed.

(** ** When the limiter returns *)

Lemma dict_loop_total (rec : json -> res json) :
  forall items cur,
    NoDup (map fst items) ->
    (forall k v, dict_get items k = Some v -> is_container v = true ->
                 exists v', rec v = Ok v') ->
    (forall b dflt c,
       type_bound items = Some (b, dflt, c) ->
       (exists m, py_min (dict_get_default cur b (JInt dflt)) c = Ok m)
       /\ forall v, dict_get items b = Some v -> is_container v = false) ->
    exists out, dict_loop rec items cur = Ok out.
Proof.
  induction items as [| [key value] rest IH]; intros cur Hnd Hrec Hbound.
  - exists cur. reflexivity.
  - assert (Hrest : NoDup (map fst rest)) by (now inversion Hnd).
    pose proof (NoDup_head_absent _ _ _ Hnd) as Habs.
    assert (Hrec' : forall k v, dict_get rest k = Some v ->
                                is_container v = true ->
                                exists v', rec v = Ok v').
    { intros k v Hg Hc. apply (Hrec k v); [| exact Hc].
      rewrite dict_get_cons. eqb_cases key k; [congruence | exact Hg]. }
    rewrite dict_loop_cons.
    destruct (trigger key value) as [[[b dflt] c] |] eqn:Htr.
    + pose proof (trigger_key _ _ _ Htr) as ->.
      destruct (Hbound b dflt c) as [(m & Hm) _].
      { unfold type_bound. now rewrite dict_get_cons, String.eqb_refl. }
      rewrite Hm. simpl. apply IH; [exact Hrest | exact Hrec' |].
      intros b' dflt' c' Htb.
      rewrite (type_bound_absent _ Habs) in Htb. discriminate.
    + assert (Hbound' : forall cur',
                (forall b, dict_get ((key, value) :: rest) b <> Some value
                           \/ is_container value = false ->
                           dict_get cur' b = dict_get cur b) ->
                forall b dflt c,
                  type_bound rest = Some (b, dflt, c) ->
                  (exists m,
                     py_min (dict_get_default cur' b (JInt dflt)) c = Ok m)
                  /\ forall v, dict_get rest b = Some v ->
                               is_container v = false).
      { intros cur' Hsame b dflt c Htb.
        assert (Hkey : key <> "type").
        { intros ->. rewrite (type_bound_absent _ Habs) in Htb.
          discriminate. }
        assert (Htb' : type_bound ((key, value) :: rest) = Some (b, dflt, c)).
        { unfold type_bound in *. rewrite dict_get_cons.
          apply String.eqb_neq in Hkey. now rewrite Hkey. }
        destruct (Hbound _ _ _ Htb') as [Hmin Hsc].
        assert (Hvb : dict_get ((key, value) :: rest) b <> Some value
                      \/ is_container value = false).
        { destruct (is_container value) eqn:Hc; [left | now right].
          intros Hg. specialize (Hsc _ Hg). congruence. }
        split.
        - unfold dict_get_default in *. now rewrite (Hsame _ Hvb).
        - intros v Hg. apply Hsc. rewrite dict_get_cons.
          eqb_cases key b; [congruence | exact Hg]. }
      destruct (is_container value) eqn:Hc.
      * destruct (Hrec key value) as [v' Hv']; [| exact Hc |].
        { now rewrite dict_get_cons, String.eqb_refl. }
        rewrite Hv'. simpl. apply IH; [exact Hrest | exact Hrec' |].
        apply Hbound'. intros b [Hb | Hb]; [| discriminate].
        apply dict_get_set_other. intros <-. apply Hb.
        now rewrite dict_get_cons, String.eqb_refl.
      * apply IH; [exact Hrest | exact Hrec' |]. now apply Hbound'.
Qed.

Lemma bound_ok_min (d : dict) (b : string) (dflt c : Z) :
  type_bound d = Some (b, dflt, c) ->
  bound_ok d = true <->
  exists m, py_min (dict_get_default d b (JInt dflt)) c = Ok m.
Proof.
  intros Htb. unfold bound_ok, dict_get_default, py_min. rewrite Htb.
  destruct (dict_get d b) as [v |].
  - destruct (Num.of_json v); split; eauto; try discriminate.
    now intros (m & ?).
  - simpl. split; eauto.
Qed.

(** The limiter returns exactly when every bound it caps is a number or
    absent. *)
Lemma limit_complexity_succeeds :
  forall T, wf T = true ->
            (exists T', limit_complexity T = Ok T') <-> bounds_ok T = true.
Proof.
  induction T as [| | | | | l IH | d IH] using json_ind; intros Hwf;
    try (split; [reflexivity | intros _; eexists; reflexivity]).
  - (* lists *)
    pose proof (wf_list _ Hwf) as Hall. clear Hwf.
    rewrite limit_complexity_list. cbn [bounds_ok].
    induction l as [| x l IHl]; simpl.
    + split; [reflexivity | intros _; eexists; reflexivity].
    + inversion IH as [| ? ? Hx Hl]; subst.
      specialize (IHl Hl (fun v Hv => Hall v (or_intror Hv))).
      specialize (Hx (Hall x (or_introl eq_refl))).
      rewrite andb_true_iff, <- Hx, <- IHl. split.
      * intros (T' & H). apply rbind_Ok in H as (l' & H & _).
        apply rbind_Ok in H as (v & Hv & H).
        apply rbind_Ok in H as (vs & Hvs & _).
        split; [eauto |]. rewrite Hvs. simpl. eauto.
      * intros [(v & Hv) (T' & H)].
        apply rbind_Ok in H as (vs & Hvs & _).
        rewrite Hv. simpl. rewrite Hvs. simpl. eauto.
  - (* dictionaries *)
    pose proof (wf_dict _ Hwf) as [Hnd Hsub].
    rewrite Forall_forall in IH. cbn [bounds_ok].
    rewrite andb_true_iff, forallb_forall. split.
    + intros (T' & HT).
      destruct (limit_dict_spec _ _ Hwf HT) as (d' & -> & _ & Hok & Hpost).
      split.
      * destruct (type_bound d) as [[[b dflt] c] |] eqn:Htb;
          [| unfold bound_ok; now rewrite Htb].
        apply (bound_ok_min _ _ _ _ Htb).
        destruct (limit_dict_bound _ _ _ _ _ Hwf HT Htb) as (m & Hm & _).
        eauto.
      * intros [k v] Hin. simpl.
        destruct (is_container v) eqn:Hc.
        -- apply (IH _ Hin); [eauto |].
           apply (Hok k v); [now apply In_dict_get | exact Hc].
        -- destruct v; try discriminate; reflexivity.
    + intros [Hb Hvals].
      destruct (dict_loop_total limit_complexity d d Hnd) as [d' Hd'].
      * intros k v Hg Hc. apply dict_get_In in Hg.
        apply (IH _ Hg); [eauto |]. exact (Hvals _ Hg).
      * intros b dflt c Htb. split.
        -- now apply (bound_ok_min _ _ _ _ Htb).
        -- intros v Hg. unfold bound_ok in Hb. rewrite Htb, Hg in Hb.
           destruct (Num.of_json v) eqn:Hv; [| discriminate].
           eauto using of_json_scalar.
      * exists (JDict d'). rewrite limit_complexity_dict, Hd'. reflexivity.
Qed.

Example bounds_ok_nested_schema : bounds_ok nested_schema = true.
Proof. reflexivity. Qed.

(** ** The limiter: formulas, idempotence, monotonicity, frame *)

Example limit_nested_schema :
  limit_complexity nested_schema = Ok nested_schema_limited.
Proof. reflexivity. Qed.

(** A bound that is not a number makes [min] raise. *)
Example limit_string_bound :
  limit_complexity (JDict [("type", JStr "array"); ("maxItems", JStr "7")])
  = Raise TypeError.
Proof. reflexivity. Qed.

Lemma caps_true (d : dict) (k : string) :
  caps d k = true <-> exists dflt c, type_bound d = Some (k, dflt, c).
Proof.
  unfold caps. destruct (type_bound d) as [[[b dflt] c] |].
  - rewrite String.eqb_eq. split.
    + intros ->. eauto.
    + now intros (? & ? & [= -> _ _]).
  - split; [discriminate | now intros (? & ? & ?)].
Qed.

Lemma type_bound_facts (d : dict) (b : string) (dflt c : Z) :
  type_bound d = Some (b, dflt, c) ->
  is_bound_key b = true /\ c = ceiling b /\ c <= dflt.
Proof.
  unfold type_bound. destruct (dict_get d "type") as [v |]; [| discriminate].
  unfold trigger. rewrite String.eqb_refl.
  destruct (py_eq_str v "array");
    [intros [= <- <- <-]; repeat split; discriminate |].
  destruct (py_eq_str v "object");
    [intros [= <- <- <-]; repeat split; discriminate |].
  destruct (py_in_strs v _);
    [intros [= <- <- <-]; repeat split; discriminate | discriminate].
Qed.

Lemma py_le_refl (x : json) : numeric x = true -> py_le x x = true.
Proof.
  unfold numeric, py_le. destruct (Num.of_json x); [| discriminate].
  intros H. apply negb_true_iff in H. now apply leb_refl.
Qed.

Lemma ltb_not_leb (a b : Num.xreal) :
  Num.ltb a b = true -> Num.leb b a = false.
Proof.
  destruct a as [| [|] | n1 e1], b as [| [|] | n2 e2]; simpl;
    try reflexivity; try discriminate.
  intros H. apply Z.ltb_lt in H. apply Z.leb_gt.
  now rewrite (Z.min_comm e2 e1).
Qed.

(** What [min] returns is the minimum, stated without [min]. *)
Lemma py_min_min_of (x : json) (c : Z) (m : json) :
  py_min x c = Ok m ->
  min_of x c m /\ (forall z, x = JInt z -> m = JInt (Z.min z c)).
Proof.
  intros Hm. split.
  - destruct (py_min_inv _ _ _ Hm) as (a & Ha & ->).
    unfold min_of, py_le. rewrite Ha. simpl Num.of_json.
    destruct (Num.is_nan a) eqn:Hnan.
    + destruct a; try discriminate. reflexivity.
    + destruct (Num.ltb (Num.XDy c 0) a) eqn:Hlt.
      * now rewrite (ltb_not_leb _ _ Hlt).
      * assert (Hc : Num.is_nan (Num.XDy c 0) = false) by reflexivity.
        now rewrite (not_ltb_leb _ _ Hc Hnan Hlt).
  - intros z ->. rewrite py_min_int in Hm. now injection Hm as <-.
Qed.

(** C1.  At every dictionary node of a schema the limiter returns, the
    bound that goes with the node's [type] is the minimum of the existing
    bound (10, 10 and 100 when absent) and the ceiling 5, 5 and 20:
    [maxItems] for "array", [maxProperties] for "object", [maxLength] for
    "string", "number" and "integer".  The minimum is the existing bound
    when it is at most the ceiling and the ceiling otherwise; on an
    integer bound [z] it is [Z.min z] of the ceiling. *)
Theorem limit_complexity_bounds (T T' : json) (p : list step) (d : dict) :
  wf T = true -> limit_complexity T = Ok T' ->
  at_path p T = Some (JDict d) ->
  exists d', at_path p T' = Some (JDict d') /\ capped_by_formula d d'.
Proof.
  intros Hwf HT Hn.
  destruct (limit_at_dict _ _ _ _ Hwf HT Hn) as (d' & Hn' & Hwd & Hd).
  exists d'. split; [exact Hn' |].
  assert (Hb : forall v b dflt c,
             dict_get d "type" = Some v ->
             trigger "type" v = Some (b, dflt, c) ->
             written_with_min d d' b dflt c).
  { intros v b dflt c Hg Htr.
    assert (Htb : type_bound d = Some (b, dflt, c))
      by (now rewrite (type_bound_trigger _ _ Hg)).
    destruct (limit_dict_bound _ _ _ _ _ Hwd Hd Htb) as (m & Hm & Hgm).
    exists m. split; [exact Hgm |]. now apply py_min_min_of. }
  repeat split.
  - intros Hg. now apply (Hb _ _ _ _ Hg).
  - intros Hg. now apply (Hb _ _ _ _ Hg).
  - intros t Ht Hg. apply (Hb _ _ _ _ Hg).
    destruct Ht as [<- | [<- | [<- | []]]]; reflexivity.
Qed.

(** At the root of the nested sample the bound 7 of an array is capped. *)
Lemma limit_complexity_bounds_witness :
  exists d',
    at_path [] nested_schema_limited = Some (JDict d')
    /\ capped_by_formula
         [("type", JStr "array"); ("maxItems", JInt 7);
          ("items", JDict [("maxLength", JInt 3); ("type", JStr "string")]);
          ("anyOf", JList [JDict [("type", JStr "object")]; JBool true])]
         d'.
Proof.
  apply (limit_complexity_bounds nested_schema nested_schema_limited []);
    reflexivity.
Defined.

(** C2.  The limiter is idempotent: limiting the schema it returned
    returns that schema again, and so limiting twice is limiting once. *)
Theorem limit_complexity_idempotent (T : json) :
  wf T = true ->
  (T' <- limit_complexity T ;; limit_complexity T') = limit_complexity T.
Proof.
  intros Hwf. destruct (limit_complexity T) as [T' | e] eqn:HT; simpl.
  - now apply (limit_complexity_fixed T).
  - reflexivity.
Qed.

Lemma limit_complexity_idempotent_witness :
  (T' <- limit_complexity nested_schema ;; limit_complexity T')
  = limit_complexity nested_schema.
Proof. apply limit_complexity_idempotent. reflexivity. Defined.

(** C3.  At every dictionary node, a bound key that holds a number (an
    [int], a [bool], or a [float] other than NaN) holds in the output a
    value less than or equal to it; a bound the limiter writes, over such
    a number or where none was present, is at most the ceiling of its key
    (5 for [maxItems] and [maxProperties], 20 for [maxLength]). *)
Theorem limit_complexity_lowers (T T' : json) (p : list step) (d : dict) :
  wf T = true -> limit_complexity T = Ok T' ->
  at_path p T = Some (JDict d) ->
  exists d', at_path p T' = Some (JDict d') /\ bounds_lowered d d'.
Proof.
  intros Hwf HT Hn.
  destruct (limit_at_dict _ _ _ _ Hwf HT Hn) as (d' & Hn' & Hwd & Hd).
  exists d'. split; [exact Hn' |].
  intros k Hk. split.
  - intros x Hg Hnum.
    destruct (caps d k) eqn:Hcaps.
    + apply caps_true in Hcaps as (dflt & c & Htb).
      destruct (limit_dict_bound _ _ _ _ _ Hwd Hd Htb) as (m & Hm & Hgm).
      destruct (type_bound_facts _ _ _ _ Htb) as (_ & -> & _).
      unfold dict_get_default in Hm. rewrite Hg in Hm.
      destruct (py_min_le _ _ _ Hnum Hm) as [Hle Hceil].
      exists m. auto.
    + exists x. split; [| split; [now apply py_le_refl | discriminate]].
      apply (limit_dict_scalar _ _ _ _ Hwd Hd Hg).
      * unfold numeric in Hnum.
        destruct (Num.of_json x) eqn:Hx; [| discriminate].
        eauto using of_json_scalar.
      * intros dflt c Htb.
        assert (caps d k = true) by (apply caps_true; eauto). congruence.
  - intros Hg Hcaps.
    apply caps_true in Hcaps as (dflt & c & Htb).
    destruct (limit_dict_bound _ _ _ _ _ Hwd Hd Htb) as (m & Hm & Hgm).
    destruct (type_bound_facts _ _ _ _ Htb) as (_ & Hc & Hle).
    unfold dict_get_default in Hm. rewrite Hg, py_min_int in Hm.
    injection Hm as <-. exists (JInt (Z.min dflt c)). split; [exact Hgm |].
    rewrite Z.min_r by exact Hle. rewrite <- Hc. now apply py_le_refl.
Qed.

Lemma limit_complexity_lowers_witness :
  exists d', at_path [] nested_schema_limited = Some (JDict d')
             /\ bounds_lowered
                  [("type", JStr "array"); ("maxItems", JInt 7);
                   ("items", JDict [("maxLength", JInt 3);
                                    ("type", JStr "string")]);
                   ("anyOf", JList [JDict [("type", JStr "object")];
                                    JBool true])] d'.
Proof.
  apply (limit_complexity_lowers nested_schema nested_schema_limited []);
    reflexivity.
Defined.



Lemma not_capped_other_key (d : dict) (k : string) :
  is_bound_key k = false -> forall dflt c, type_bound d <> Some (k, dflt, c).
Proof.
  intros Hk dflt c Htb. apply type_bound_facts in Htb as (Hb & _).
  congruence.
Qed.

Lemma keys_dict_get (d : dict) (k : string) :
  In k (keys d) <-> exists v, dict_get d k = Some v.
Proof.
  unfold keys. destruct (dict_get d k) as [v |] eqn:Hg.
  - split; [eauto |]. intros _.
    apply dict_get_In in Hg. change k with (fst (k, v)). now apply in_map.
  - apply dict_get_None in Hg. split; [tauto | now intros (? & ?)].
Qed.

(** What stays of a dictionary the limiter returns. *)
Lemma limit_dict_framed (d d' : dict) :
  wf (JDict d) = true -> limit_complexity (JDict d) = Ok (JDict d') ->
  framed d d'.
Proof.
  intros Hwf Hd. repeat split.
  - intros k v. apply (limit_dict_container _ _ _ _ Hwf Hd).
  - intros k v Hk Hg Hc.
    apply (limit_dict_scalar _ _ _ _ Hwf Hd Hg Hc).
    now apply not_capped_other_key.
  - intros k Hin. apply keys_dict_get in Hin as [v Hg].
    apply keys_dict_get.
    destruct (is_container v) eqn:Hc.
    + destruct (limit_dict_container _ _ _ _ Hwf Hd Hg Hc) as (v' & _ & Hg').
      eauto.
    + destruct (caps d k) eqn:Hcaps.
      * apply caps_true in Hcaps as (dflt & c & Htb).
        destruct (limit_dict_bound _ _ _ _ _ Hwf Hd Htb) as (m & _ & Hgm).
        eauto.
      * exists v. apply (limit_dict_scalar _ _ _ _ Hwf Hd Hg Hc).
        intros dflt c Htb.
        assert (caps d k = true) by (apply caps_true; eauto). congruence.
  - intros k Hk Hin. apply keys_dict_get in Hin as [v' Hg'].
    apply keys_dict_get.
    destruct (dict_get d k) as [v |] eqn:Hg; [eauto |].
    pose proof (limit_dict_absent _ _ _ Hwf Hd Hg
                  (not_capped_other_key _ _ Hk)).
    congruence.
Qed.

(** C4.  The limiter keeps the shape of its input.  A scalar is returned
    as it is; a list is rewritten element by element; in a dictionary
    every value that is a list or a dictionary is replaced by its limited
    form whatever its key, every other entry under a key that is not
    [maxItems], [maxProperties] or [maxLength] is kept, and no key is
    removed. *)
Theorem limit_complexity_frame :
  (forall v, is_container v = false -> limit_complexity v = Ok v)
  /\ (forall l r,
        limit_complexity (JList l) = Ok r
        <-> exists l', r = JList l'
                       /\ Forall2 (fun v v' => limit_complexity v = Ok v')
                                  l l')
  /\ (forall d r,
        wf (JDict d) = true -> limit_complexity (JDict d) = Ok r ->
        exists d', r = JDict d' /\ framed d d').
Proof.
  split; [exact limit_complexity_scalar |]. split.
  - intros l r. rewrite limit_complexity_list. split.
    + intros H. apply rbind_Ok in H as (l' & Hl' & [= <-]).
      exists l'. split; [reflexivity | now apply list_comp_Forall2].
    + intros (l' & -> & Hl'). apply list_comp_Forall2 in Hl'.
      now rewrite Hl'.
  - intros d r Hwf Hd.
    destruct (limit_dict_spec _ _ Hwf Hd) as (d' & -> & _).
    exists d'. split; [reflexivity | now apply limit_dict_framed].
Qed.

Lemma limit_complexity_frame_witness :
  exists d', nested_schema_limited = JDict d'
             /\ framed
                  [("type", JStr "array"); ("maxItems", JInt 7);
                   ("items", JDict [("maxLength", JInt 3);
                                    ("type", JStr "string")]);
                   ("anyOf", JList [JDict [("type", JStr "object")];
                                    JBool true])] d'.
Proof.
  apply (proj2 (proj2 limit_complexity_frame)); reflexivity.
Defined.

Lemma py_eq_str_true (v : json) (s : string) :
  py_eq_str v s = true -> v = JStr s.
Proof.
  destruct v; simpl; try discriminate. intros H.
  apply String.eqb_eq in H. now subst.
Qed.

Lemma type_bound_exact (d : dict) (b : string) (dflt c : Z) :
  type_bound d = Some (b, dflt, c) -> exact_type d.
Proof.
  unfold type_bound, exact_type, capped_types.
  destruct (dict_get d "type") as [v |]; [| discriminate].
  unfold trigger. rewrite String.eqb_refl.
  destruct (py_eq_str v "array") eqn:E1.
  { apply py_eq_str_true in E1 as ->. intros _. exists "array".
    simpl. tauto. }
  destruct (py_eq_str v "object") eqn:E2.
  { apply py_eq_str_true in E2 as ->. intros _. exists "object".
    simpl. tauto. }
  destruct (py_in_strs v _) eqn:E3; [| discriminate].
  intros _. unfold py_in_strs in E3.
  apply existsb_exists in E3 as (t & Hin & Ht).
  apply py_eq_str_true in Ht as ->. exists t. split; [| reflexivity].
  simpl in *. tauto.
Qed.

(** C9.  A node is capped only when its [type] is exactly one of the
    strings "array", "object", "string", "number", "integer".  At any
    other dictionary node, and so at one whose [type] is a list of type
    names, none of [maxItems], [maxProperties], [maxLength] is injected
    and a bound that is already there keeps its value. *)
Theorem limit_complexity_union_type (T T' : json) (p : list step)
    (d : dict) :
  wf T = true -> limit_complexity T = Ok T' ->
  at_path p T = Some (JDict d) ->
  exists d', at_path p T' = Some (JDict d')
             /\ (~ exact_type d -> uncapped d d')
             /\ (forall ts, dict_get d "type" = Some (JList ts) ->
                            uncapped d d').
Proof.
  intros Hwf HT Hn.
  destruct (limit_at_dict _ _ _ _ Hwf HT Hn) as (d' & Hn' & Hwd & Hd).
  exists d'. split; [exact Hn' |].
  assert (Hun : ~ exact_type d -> uncapped d d').
  { intros Hne k Hk.
    assert (Hnot : forall dflt c, type_bound d <> Some (k, dflt, c))
      by (intros dflt c Htb; eauto using type_bound_exact).
    split.
    - intros Hg. now apply (limit_dict_absent _ _ _ Hwd Hd Hg).
    - intros v Hg Hc. now apply (limit_dict_scalar _ _ _ _ Hwd Hd Hg Hc). }
  split; [exact Hun |].
  intros ts Hts. apply Hun. intros (t & _ & Ht). congruence.
Qed.

Lemma limit_complexity_union_type_witness :
  exists d', at_path [] union_schema = Some (JDict d')
             /\ (~ exact_type
                     [("type", JList [JStr "array"; JStr "object"]);
                      ("maxLength", JInt 70)] ->
                 uncapped [("type", JList [JStr "array"; JStr "object"]);
                           ("maxLength", JInt 70)] d')
             /\ (forall ts,
                   dict_get [("type", JList [JStr "array"; JStr "object"]);
                             ("maxLength", JInt 70)] "type"
                   = Some (JList ts) ->
                   uncapped [("type", JList [JStr "array"; JStr "object"]);
                             ("maxLength", JInt 70)] d').
Proof.
  apply (limit_complexity_union_type union_schema union_schema []);
    reflexivity.
Defined.

(** The union-typed sample comes back unchanged. *)
Example limit_union_schema : limit_complexity union_schema = Ok union_schema.
Proof. reflexivity. Qed.

(** ** The schema loader *)

(** The sample decoder on the texts used below. *)
Example loads_integer_schema :
  Decoder.loads integer_schema_text = Some integer_schema.
Proof. reflexivity. Qed.

Example loads_array_schema :
  Decoder.loads array_schema_text = Some array_schema.
Proof. reflexivity. Qed.

Example loads_not_json : Decoder.loads "not json" = None.
Proof. reflexivity. Qed.

Example loads_nested :
  Decoder.loads "[1, -20, [true, null], {}]"
  = Some (JList [JInt 1; JInt (-20); JList [JBool true; JNull]; JDict []]).
Proof. reflexivity. Qed.

(** The loader, case by case. *)
Lemma load_schema_cases (w : world) (s : string) :
  load_schema w s
  = match fs_open w s with
    | Opened text =>
        match json_decode w text with
        | Some v =>
            ([Stdout (AttemptingLoad s); Stdout (LoadedFromFile s)], Ok v)
        | None => ([Stdout (AttemptingLoad s)], Raise (JSONDecodeError text))
        end
    | Refused => ([Stdout (AttemptingLoad s)], Raise (OSError s))
    | NotFound =>
        match json_decode w s with
        | Some v => ([Stdout (AttemptingLoad s); Stdout ParsedInline], Ok v)
        | None => ([Stdout (AttemptingLoad s)], Raise (InvalidSchema s))
        end
    end.
Proof.
  unfold load_schema, py_open, json_loads.
  destruct (fs_open w s) as [text | |]; simpl.
  - destruct (json_decode w text); reflexivity.
  - destruct (json_decode w s); reflexivity.
  - reflexivity.
Qed.

(** C5, as the spec has it, fails.  [broken.json] exists and holds text
    that is not JSON, and its name is no JSON literal either: both
    readings fail, yet the loader ends with the decoder's error, not with
    the invalid-schema error.  [locked.json] cannot be opened and its name
    is no JSON literal: both readings fail again, and the loader ends with
    the operating system's error. *)
Lemma load_schema_both_fail_other_error :
  (file_reading_fails sample_world "broken.json"
   /\ literal_reading_fails sample_world "broken.json"
   /\ snd (load_schema sample_world "broken.json")
      = Raise (JSONDecodeError "not json")
   /\ snd (load_schema sample_world "broken.json")
      <> Raise (InvalidSchema "broken.json"))
  /\ (file_reading_fails sample_world "locked.json"
      /\ literal_reading_fails sample_world "locked.json"
      /\ snd (load_schema sample_world "locked.json")
         = Raise (OSError "locked.json")
      /\ is_ValueError (OSError "locked.json") = false).
Proof.
  repeat split; try reflexivity. discriminate.
Qed.

(** C5, amended.  The loader first opens its argument as a path and
    decodes the file, returning the decoded value; when there is no such
    file it decodes the argument itself, returning the decoded value; and
    it raises the invalid-schema error exactly when there is no such file
    and the argument is not a JSON literal. *)
Theorem load_schema_spec (w : world) (s : string) :
  (forall text v,
     fs_open w s = Opened text -> json_decode w text = Some v ->
     snd (load_schema w s) = Ok v)
  /\ (forall v,
        fs_open w s = NotFound -> json_decode w s = Some v ->
        snd (load_schema w s) = Ok v)
  /\ (snd (load_schema w s) = Raise (InvalidSchema s)
      <-> fs_open w s = NotFound /\ json_decode w s = None).
Proof.
  rewrite load_schema_cases. repeat split.
  - intros text v -> ->. reflexivity.
  - intros v -> ->. reflexivity.
  - destruct (fs_open w s) as [text | |]; [| reflexivity |].
    + destruct (json_decode w text); discriminate.
    + discriminate.
  - destruct (fs_open w s) as [text | |].
    + destruct (json_decode w text); discriminate.
    + destruct (json_decode w s); [discriminate | reflexivity].
    + discriminate.
  - intros [-> ->]. reflexivity.
Qed.

(** The three loads the spec lists: a file holding [{"type": "integer"}],
    the same text given inline, and [not json]. *)
Lemma load_schema_spec_witness :
  snd (load_schema sample_world "schema.json") = Ok integer_schema
  /\ snd (load_schema sample_world integer_schema_text) = Ok integer_schema
  /\ snd (load_schema sample_world "not json")
     = Raise (InvalidSchema "not json").
Proof.
  split; [| split].
  - apply (proj1 (load_schema_spec sample_world "schema.json")
             integer_schema_text); reflexivity.
  - apply (proj1 (proj2 (load_schema_spec sample_world integer_schema_text)));
      reflexivity.
  - apply (proj2 (proj2 (load_schema_spec sample_world "not json"))).
    split; reflexivity.
Defined.

(** C10.  When the path names a file whose text is not JSON the loader
    ends with the decoder's error: nothing else is printed, the argument
    itself is not decoded, and the error is not the invalid-schema error.
    The outcomes of the inline reading, its message and the invalid-schema
    error, occur only when the file was not found. *)
Theorem load_schema_malformed_file (w : world) (path : string) :
  (forall text,
     fs_open w path = Opened text -> json_decode w text = None ->
     load_schema w path
     = ([Stdout (AttemptingLoad path)], Raise (JSONDecodeError text))
     /\ JSONDecodeError text <> InvalidSchema path)
  /\ (In (Stdout ParsedInline) (fst (load_schema w path))
      \/ snd (load_schema w path) = Raise (InvalidSchema path) ->
      fs_open w path = NotFound).
Proof.
  rewrite load_schema_cases. split.
  - intros text -> ->. split; [reflexivity | discriminate].
  - destruct (fs_open w path) as [text | |]; [| reflexivity |].
    + destruct (json_decode w text); simpl; intuition discriminate.
    + simpl. intuition discriminate.
Qed.

Lemma load_schema_malformed_file_witness :
  load_schema sample_world "broken.json"
  = ([Stdout (AttemptingLoad "broken.json")],
     Raise (JSONDecodeError "not json"))
  /\ JSONDecodeError "not json" <> InvalidSchema "broken.json".
Proof.
  apply (proj1 (load_schema_malformed_file sample_world "broken.json"));
    reflexivity.
Defined.

(** ** The command line driver *)

Lemma snd_eq {A B} (p : A * B) (b : B) : snd p = b -> p = (fst p, b).
Proof. destruct p. simpl. now intros ->. Qed.


(** [main] when the loader raises. *)
Lemma main_load_error (w : world) (args : arguments) (t1 : list event)
    (e : exn) :
  load_schema w (arg_schema args) = (t1, Raise e) ->
  main w args
  = let received :=
      Stdout (ReceivedArguments (arg_schema args) (arg_num args)
                                (arg_seed args) (arg_script args)) in
    if is_ValueError e then
      ((received :: t1 ++ [Stderr (ErrorLine e)])%list, Raise (SystemExit 1))
    else (received :: t1, Raise e).
Proof.
  intros Hload. unfold main, try_except. rewrite Hload.
  destruct (is_ValueError e); reflexivity.
Qed.

(** [main] once the schema is loaded and the seed is set. *)
Lemma main_run (w : world) (args : arguments) (t1 ts t2 : list event)
    (schema : json) (r : res unit) :
  load_schema w (arg_schema args) = (t1, Ok schema) ->
  set_seed w args = (ts, Ok tt) ->
  selected_run w schema args = (t2, r) ->
  main w args
  = let received :=
      Stdout (ReceivedArguments (arg_schema args) (arg_num args)
                                (arg_seed args) (arg_script args)) in
    match r with
    | Ok u => ((received :: t1 ++ ts ++ t2)%list, Ok u)
    | Raise e =>
        if is_Exception e then
          ((received :: t1 ++ ts ++ t2 ++ [Stderr (ErrorLine e)])%list,
           Raise (SystemExit 1))
        else ((received :: t1 ++ ts ++ t2)%list, Raise e)
    end.
Proof.
  intros Hload Hseed Hrun. unfold main, try_except.
  rewrite Hload. cbn [mbind print emit app]. rewrite Hseed.
  cbn [mbind print emit app]. rewrite Hrun.
  destruct r as [u | e]; [reflexivity |].
  destruct (is_Exception e); reflexivity.
Qed.

Lemma cli_of_main (w : world) (args : arguments) (t : list event)
    (r : res unit) :
  main w args = (t, r) ->
  cli w args
  = match r with
    | Ok _ => ((Stdout StartingCLI :: t ++ [Stdout CompletedCLI])%list, Ok tt)
    | Raise e => (Stdout StartingCLI :: t, Raise e)
    end.
Proof.
  intros Hmain. unfold cli. simpl. rewrite Hmain.
  destruct r as [u | e]; reflexivity.
Qed.

(** C6.  The process exits with status 0 when the schema is loaded, the
    seed (if one is given) is set, and the generation or script run that
    was asked for ends without error.  When the loader raises an error
    the driver catches (a [ValueError]), or the generator or the runner
    raises one (any [Exception]), the driver prints that error on the
    diagnostic stream as the last thing it does and exits with
    status 1. *)
Theorem cli_exit_status (w : world) (args : arguments) :
  (forall schema,
     snd (load_schema w (arg_schema args)) = Ok schema ->
     snd (set_seed w args) = Ok tt ->
     snd (selected_run w schema args) = Ok tt ->
     exit_status (snd (cli w args)) = 0)
  /\ (forall e,
        snd (load_schema w (arg_schema args)) = Raise e ->
        is_ValueError e = true ->
        exit_status (snd (cli w args)) = 1
        /\ exists t, fst (cli w args) = (t ++ [Stderr (ErrorLine e)])%list)
  /\ (forall schema e,
        snd (load_schema w (arg_schema args)) = Ok schema ->
        snd (set_seed w args) = Ok tt ->
        snd (selected_run w schema args) = Raise e ->
        is_Exception e = true ->
        exit_status (snd (cli w args)) = 1
        /\ exists t, fst (cli w args) = (t ++ [Stderr (ErrorLine e)])%list).
Proof.
  split; [| split].
  - intros schema Hload Hseed Hrun.
    apply snd_eq in Hload, Hseed, Hrun.
    rewrite (cli_of_main _ _ _ _ (main_run _ _ _ _ _ _ _ Hload Hseed Hrun)).
    reflexivity.
  - intros e Hload He. apply snd_eq in Hload.
    pose proof (main_load_error _ _ _ _ Hload) as Hmain.
    cbv zeta in Hmain. rewrite He in Hmain.
    rewrite (cli_of_main _ _ _ _ Hmain). split; [reflexivity |].
    eexists. simpl. rewrite !app_comm_cons. reflexivity.
  - intros schema e Hload Hseed Hrun He.
    apply snd_eq in Hload, Hseed, Hrun.
    pose proof (main_run _ _ _ _ _ _ _ Hload Hseed Hrun) as Hmain.
    cbv zeta in Hmain. cbv iota in Hmain. rewrite He in Hmain.
    rewrite (cli_of_main _ _ _ _ Hmain). split; [reflexivity |].
    eexists. simpl. rewrite !app_assoc, !app_comm_cons. reflexivity.
Qed.

Lemma cli_exit_status_witness :
  exit_status (snd (cli sample_world sample_arguments)) = 0.
Proof.
  apply (proj1 (cli_exit_status sample_world sample_arguments)
           array_schema); reflexivity.
Defined.

(** ** The script runner *)

Lemma tested_instances_app (a b : list event) :
  tested_instances (a ++ b) = (tested_instances a ++ tested_instances b)%list.
Proof.
  induction a as [| ev a IH]; [reflexivity |].
  destruct ev as [m | m | path content | argv]; simpl; try exact IH.
  destruct m; simpl; try exact IH. now rewrite IH.
Qed.

Lemma generated_instances_app (a b : list event) :
  generated_instances (a ++ b)
  = (generated_instances a ++ generated_instances b)%list.
Proof.
  induction a as [| ev a IH]; [reflexivity |].
  destruct ev as [m | m | path content | argv]; simpl; try exact IH.
  destruct m; simpl; try exact IH. now rewrite IH.
Qed.

(** The loader and the seeding print no instance. *)
Lemma load_schema_no_instance (w : world) (s : string) :
  tested_instances (fst (load_schema w s)) = []
  /\ generated_instances (fst (load_schema w s)) = [].
Proof.
  rewrite load_schema_cases. destruct (fs_open w s) as [text | |].
  - destruct (json_decode w text); split; reflexivity.
  - destruct (json_decode w s); split; reflexivity.
  - split; reflexivity.
Qed.

Lemma set_seed_no_instance (w : world) (args : arguments) :
  tested_instances (fst (set_seed w args)) = []
  /\ generated_instances (fst (set_seed w args)) = [].
Proof.
  unfold set_seed. destruct (arg_seed args) as [seed |]; simpl.
  - destruct (seed_random w seed); split; reflexivity.
  - split; reflexivity.
Qed.

Lemma test_instance_accepts (w : world) (script : string) (x : json) :
  script_accepts w script x ->
  test_instance w script x = (acceptance_report script x, Ok tt).
Proof.
  intros (r & Hrun & Hcode). unfold test_instance. simpl.
  rewrite Hrun, Hcode. reflexivity.
Qed.

Lemma test_instance_rejects (w : world) (script : string) (x : json)
    (r : completed) :
  script_rejects w script x r ->
  test_instance w script x = (rejection_report script x r, Raise test_failed).
Proof.
  intros [Hrun Hcode]. unfold test_instance. simpl. rewrite Hrun.
  apply Z.eqb_neq in Hcode. rewrite Hcode. reflexivity.
Qed.

(** The engine stops at the first instance the script rejects. *)
Lemma run_examples_rejects (w : world) (script : string)
    (strategy : nat -> res json) (x : json) (r : completed) :
  forall k i0 n,
    (forall j, (j < k)%nat ->
       exists y, strategy (i0 + j)%nat = Ok y /\ script_accepts w script y) ->
    strategy (i0 + k)%nat = Ok x -> script_rejects w script x r ->
    (k < n)%nat ->
    exists t,
      run_examples strategy (test_instance w script) i0 n
      = ((t ++ rejection_report script x r)%list, Raise test_failed)
      /\ map Ok (tested_instances t) = map strategy (seq i0 k).
Proof.
  induction k as [| k IH]; intros i0 n Hpass Hx Hrej Hlt;
    destruct n as [| n]; try lia.
  - exists []. rewrite Nat.add_0_r in Hx. split; [| reflexivity].
    cbn [run_examples]. rewrite Hx. cbn [lift mbind].
    now rewrite (test_instance_rejects _ _ _ _ Hrej).
  - destruct (Hpass 0%nat ltac:(lia)) as (y & Hy & Hacc).
    rewrite Nat.add_0_r in Hy.
    destruct (IH (S i0) n) as (t & Hrun & Hseen); try lia; try exact Hrej.
    + intros j Hj. destruct (Hpass (S j) ltac:(lia)) as (z & Hz & Hzacc).
      exists z. rewrite Nat.add_succ_r in Hz. auto.
    + now rewrite Nat.add_succ_r in Hx.
    + exists (acceptance_report script y ++ t)%list. split.
      * cbn [run_examples]. rewrite Hy. cbn [lift mbind].
        rewrite (test_instance_accepts _ _ _ Hacc), Hrun.
        cbn [app]. now rewrite <- app_assoc.
      * rewrite tested_instances_app. cbn [seq map]. rewrite Hy.
        cbn [acceptance_report tested_instances app map]. now rewrite Hseen.
Qed.

(** The runner around it. *)
Lemma run_test_script_rejects (w : world) (schema limited : json)
    (strategy : nat -> res json) (num : Z) (script : string) (i : nat)
    (x : json) (r : completed) :
  limit_complexity schema = Ok limited ->
  from_schema w limited = Ok strategy ->
  (i < Z.to_nat num)%nat ->
  (forall j, (j < i)%nat ->
     exists y, strategy j = Ok y /\ script_accepts w script y) ->
  strategy i = Ok x -> script_rejects w script x r ->
  exists t,
    run_test_script w schema num script
    = ((t ++ rejection_report script x r)%list, Raise test_failed)
    /\ map Ok (tested_instances t) = map strategy (seq 0 i).
Proof.
  intros Hlim Hfrom Hlt Hpass Hx Hrej.
  destruct (run_examples_rejects w script strategy x r i 0 (Z.to_nat num))
    as (t & Hrun & Hseen); auto.
  exists ([Stdout (RunningScript script); Stdout (GeneratingTests num);
           Stdout StartingTests] ++ t)%list.
  split.
  - unfold run_test_script, given. rewrite Hlim. cbn [lift mbind print emit].
    rewrite Hfrom. cbn [lift mbind print emit]. rewrite Hrun. reflexivity.
  - rewrite tested_instances_app. exact Hseen.
Qed.

(** C7.  When the script returns a code other than 0 for an instance, the
    run stops there: the runner raises the assertion error, the instances
    handed to the script are exactly those drawn up to and including the
    rejected one, the last things printed are the rejected instance and
    the output the script wrote, followed by the error line of the
    top-level handler, and the process exits with status 1. *)
Theorem run_test_script_aborts (w : world) (args : arguments)
    (schema limited : json) (strategy : nat -> res json) (script : string)
    (i : nat) (x : json) (r : completed) :
  truthy (arg_script args) = Some script ->
  snd (load_schema w (arg_schema args)) = Ok schema ->
  snd (set_seed w args) = Ok tt ->
  limit_complexity schema = Ok limited ->
  from_schema w limited = Ok strategy ->
  (i < Z.to_nat (arg_num args))%nat ->
  (forall j, (j < i)%nat ->
     exists y, strategy j = Ok y /\ script_accepts w script y) ->
  strategy i = Ok x ->
  script_rejects w script x r ->
  snd (run_test_script w schema (arg_num args) script) = Raise test_failed
  /\ map Ok (tested_instances (fst (cli w args)))
     = map strategy (seq 0 (S i))
  /\ (exists t,
        fst (cli w args)
        = (t ++ rejection_report script x r
             ++ [Stderr (ErrorLine test_failed)])%list)
  /\ exit_status (snd (cli w args)) = 1.
Proof.
  intros Hscript Hload Hseed Hlim Hfrom Hlt Hpass Hx Hrej.
  destruct (run_test_script_rejects _ _ _ _ _ _ _ _ _
              Hlim Hfrom Hlt Hpass Hx Hrej) as (t & Hrun & Hseen).
  assert (Hsel : selected_run w schema args
                 = ((t ++ rejection_report script x r)%list,
                    Raise test_failed))
    by (unfold selected_run; now rewrite Hscript).
  destruct (load_schema_no_instance w (arg_schema args)) as [Hquiet1 _].
  destruct (set_seed_no_instance w args) as [Hquiet2 _].
  apply snd_eq in Hload, Hseed.
  pose proof (main_run _ _ _ _ _ _ _ Hload Hseed Hsel) as Hmain.
  cbv zeta iota in Hmain. cbn [is_Exception test_failed] in Hmain.
  rewrite (cli_of_main _ _ _ _ Hmain). cbn [fst snd].
  split; [now rewrite Hrun |]. split; [| split].
  - cbn [tested_instances].
    rewrite !tested_instances_app, Hquiet1, Hquiet2.
    cbn [app rejection_report tested_instances].
    rewrite seq_S, !map_app, Hseen. cbn [map Nat.add].
    now rewrite Hx, app_nil_r.
  - eexists. rewrite <- app_assoc. rewrite !app_comm_cons, !app_assoc.
    reflexivity.
  - reflexivity.
Qed.

Lemma run_test_script_aborts_witness :
  snd (run_test_script sample_world array_schema 10 "./check.sh")
  = Raise test_failed
  /\ map Ok (tested_instances
               (fst (cli sample_world sample_script_arguments)))
     = map sample_strategy (seq 0 3)
  /\ (exists t,
        fst (cli sample_world sample_script_arguments)
        = (t ++ rejection_report "./check.sh" (JList [JInt 2])
                  {| returncode := 1; stdout := "checked";
                     stderr := "too big" |}
             ++ [Stderr (ErrorLine test_failed)])%list)
  /\ exit_status (snd (cli sample_world sample_script_arguments)) = 1.
Proof.
  apply (run_test_script_aborts sample_world sample_script_arguments
           array_schema array_schema_limited sample_strategy "./check.sh"
           2 (JList [JInt 2])); try reflexivity.
  - simpl. lia.
  - intros j Hj. destruct j as [| [| j]]; [| | lia];
      (eexists; split; [reflexivity |]; eexists; split; reflexivity).
  - split; [reflexivity | discriminate].
Defined.

(** ** The instance generator *)

(** The engine prints one line for each instance it draws. *)
Lemma run_examples_prints (strategy : nat -> res json) (P : json -> Prop) :
  (forall i, exists x, strategy i = Ok x /\ P x) ->
  forall n i0,
    exists xs,
      run_examples strategy print_instance i0 n
      = (map (fun x => Stdout (GeneratedInstance x)) xs, Ok tt)
      /\ List.length xs = n /\ Forall P xs.
Proof.
  intros Hdraw. induction n as [| n IH]; intros i0.
  - exists []. repeat split. constructor.
  - destruct (Hdraw i0) as (x & Hx & HP).
    destruct (IH (S i0)) as (xs & Hrun & Hlen & Hall).
    exists (x :: xs). repeat split.
    + cbn [run_examples]. rewrite Hx.
      cbn [lift mbind print_instance print emit].
      now rewrite Hrun.
    + simpl. now rewrite Hlen.
    + now constructor.
Qed.

Lemma generated_instances_lines (xs : list json) :
  generated_instances (map (fun x => Stdout (GeneratedInstance x)) xs) = xs.
Proof. induction xs as [| x xs IH]; simpl; now rewrite ?IH. Qed.

Lemma py_le_int (a b : Z) : py_le (JInt a) (JInt b) = (a <=? b).
Proof. unfold py_le. simpl. now rewrite !scaled_self. Qed.

(** An instance that conforms to the limited array schema is an array of
    at most five integers. *)
Lemma conforms_array_schema_limited (x : json) :
  Conform.conforms array_schema_limited x = true ->
  is_int_array x = true /\ array_length x <= 5.
Proof.
  destruct x as [| | | | | l |]; try discriminate.
  unfold array_schema_limited. cbn [Conform.conforms].
  rewrite !andb_true_iff. intros (_ & Hmax & Hitems). split.
  - change (forallb (Conform.conforms
                       (JDict [("type", JStr "integer");
                               ("maxLength", JInt 20)])) l = true)
      in Hitems.
    cbn [is_int_array]. rewrite forallb_forall in *.
    intros y Hy. specialize (Hitems _ Hy).
    destruct y; try discriminate Hitems; reflexivity.
  - change (py_le (JInt (Z.of_nat (List.length l))) (JInt 5) = true) in Hmax.
    rewrite py_le_int in Hmax. cbn [array_length]. now apply Z.leb_le.
Qed.

Lemma limit_array_schema_limited :
  limit_complexity array_schema = Ok array_schema_limited.
Proof. reflexivity. Qed.

(** C8.  A run without a script on the schema
    [{"type": "array", "items": {"type": "integer"}}] with [--num 10],
    against a generation library that yields instances conforming to the
    limited schema, exits with status 0 and prints exactly ten
    generated-instance lines, each an array of at most five integers. *)
Theorem cli_array_schema (w : world) (args : arguments) :
  snd (load_schema w (arg_schema args)) = Ok array_schema ->
  arg_num args = 10 ->
  truthy (arg_script args) = None ->
  snd (set_seed w args) = Ok tt ->
  (forall limited,
     limit_complexity array_schema = Ok limited ->
     generates_conforming w limited) ->
  exit_status (snd (cli w args)) = 0
  /\ List.length (generated_instances (fst (cli w args))) = 10%nat
  /\ Forall (fun x => is_int_array x = true /\ array_length x <= 5)
            (generated_instances (fst (cli w args))).
Proof.
  intros Hload Hnum Hscript Hseed Hgen.
  destruct (Hgen _ limit_array_schema_limited) as (strategy & Hfrom & Hdraw).
  destruct (run_examples_prints strategy _ Hdraw 10%nat 0%nat)
    as (xs & Hrun & Hlen & Hall).
  assert (Hsel : selected_run w array_schema args
                 = (([Stdout (GeneratingInstances 10 (arg_seed args));
                      Stdout (UsingSchema array_schema);
                      Stdout StartingGeneration]
                       ++ map (fun x => Stdout (GeneratedInstance x)) xs
                       ++ [Stdout FinishedGeneration])%list, Ok tt)).
  { unfold selected_run. rewrite Hscript, Hnum.
    unfold generate_json_instances, given.
    rewrite limit_array_schema_limited. cbn [lift mbind print emit app].
    rewrite Hfrom. cbn [lift mbind print emit app].
    change (Z.to_nat 10) with 10%nat. rewrite Hrun. reflexivity. }
  destruct (load_schema_no_instance w (arg_schema args)) as [_ Hquiet1].
  destruct (set_seed_no_instance w args) as [_ Hquiet2].
  apply snd_eq in Hload, Hseed.
  pose proof (main_run _ _ _ _ _ _ _ Hload Hseed Hsel) as Hmain.
  cbv zeta iota in Hmain.
  rewrite (cli_of_main _ _ _ _ Hmain). cbn [fst snd].
  assert (Hlines :
            generated_instances
              (Stdout StartingCLI
               :: (Stdout (ReceivedArguments (arg_schema args) (arg_num args)
                                             (arg_seed args) (arg_script args))
                   :: fst (load_schema w (arg_schema args))
                   ++ fst (set_seed w args)
                   ++ [Stdout (GeneratingInstances 10 (arg_seed args));
                       Stdout (UsingSchema array_schema);
                       Stdout StartingGeneration]
                   ++ map (fun x => Stdout (GeneratedInstance x)) xs
                   ++ [Stdout FinishedGeneration])
               ++ [Stdout CompletedCLI])%list = xs).
  { cbn [generated_instances app].
    rewrite !generated_instances_app, Hquiet1, Hquiet2.
    cbn [generated_instances app].
    rewrite !generated_instances_app, generated_instances_lines.
    cbn [generated_instances app]. now rewrite !app_nil_r. }
  rewrite Hlines. split; [reflexivity |]. split; [exact Hlen |].
  eapply Forall_impl; [| exact Hall].
  intros x Hx. now apply conforms_array_schema_limited.
Qed.

Lemma cli_array_schema_witness :
  exit_status (snd (cli sample_world sample_arguments)) = 0
  /\ List.length
       (generated_instances (fst (cli sample_world sample_arguments)))
     = 10%nat
  /\ Forall (fun x => is_int_array x = true /\ array_length x <= 5)
            (generated_instances (fst (cli sample_world sample_arguments))).
Proof.
  apply cli_array_schema; try reflexivity.
  intros limited Hlim.
  rewrite limit_array_schema_limited in Hlim. injection Hlim as <-.
  exists sample_strategy. split; [reflexivity |].
  intros i. eexists. split; reflexivity.
Defined.

(** * Further properties *)

(** ** The limiter: errors, invariants, key order *)





(** X1.  The limiter returns only when it could cap every bound it met:
    if it returns on a schema whose dictionaries have distinct keys, then
    at every depth a dictionary whose type asks for a bound holds a number
    under that bound key, or nothing.  A bound that is a string, null, a
    list or a dictionary is never passed over in silence. *)
Theorem limit_complexity_returns_checked (T T' : json) :
  wf T = true -> limit_complexity T = Ok T' -> bounds_ok T = true.
Proof.
  intros Hwf HT. apply (limit_complexity_succeeds T Hwf). eauto.
Qed.

Lemma limit_complexity_returns_checked_witness :
  bounds_ok nested_schema = true.
Proof.
  apply (limit_complexity_returns_checked nested_schema
           nested_schema_limited); reflexivity.
Defined.

(** Where an entry of the limiter's output comes from. *)
Lemma limit_dict_entry (d d' : dict) (k : string) (v' : json) :
  wf (JDict d) = true -> limit_complexity (JDict d) = Ok (JDict d') ->
  dict_get d' k = Some v' ->
  (exists dflt c, type_bound d = Some (k, dflt, c)
                  /\ py_min (dict_get_default d k (JInt dflt)) c = Ok v')
  \/ (exists v, dict_get d k = Some v /\ is_container v = true
                /\ limit_complexity v = Ok v')
  \/ (dict_get d k = Some v' /\ is_container v' = false).
Proof.
  intros Hwf Hd Hg'.
  destruct (caps d k) eqn:Hcaps.
  - apply caps_true in Hcaps as (dflt & c & Htb). left. exists dflt, c.
    split; [exact Htb |].
    destruct (limit_dict_bound _ _ _ _ _ Hwf Hd Htb) as (m & Hm & Hgm).
    congruence.
  - assert (Hnot : forall dflt c, type_bound d <> Some (k, dflt, c)).
    { intros dflt c Htb.
      assert (caps d k = true) by (apply caps_true; eauto). congruence. }
    right. destruct (dict_get d k) as [v |] eqn:Hg.
    + destruct (is_container v) eqn:Hc.
      * left. exists v.
        destruct (limit_dict_container _ _ _ _ Hwf Hd Hg Hc)
          as (v'' & Hv'' & Hg'').
        repeat split; congruence.
      * right. pose proof (limit_dict_scalar _ _ _ _ Hwf Hd Hg Hc Hnot).
        split; congruence.
    + pose proof (limit_dict_absent _ _ _ Hwf Hd Hg Hnot). congruence.
Qed.

Lemma scalar_wf (v : json) : is_container v = false -> wf v = true.
Proof. destruct v; simpl; congruence. Qed.

(** X2.  The limiter keeps dictionaries well formed: when the keys of
    every dictionary of the input are pairwise distinct, so are those of
    every dictionary of the output. *)
Theorem limit_complexity_wf :
  forall T T', wf T = true -> limit_complexity T = Ok T' -> wf T' = true.
Proof.
  induction T as [| | | | | l IH | d IH] using json_ind; intros T' Hwf HT;
    try (simpl in HT; injection HT as <-; reflexivity).
  - rewrite limit_complexity_list in HT.
    apply rbind_Ok in HT as (l' & Hl' & [= <-]).
    apply list_comp_Forall2 in Hl'.
    pose proof (wf_list _ Hwf) as Hall. clear Hwf.
    cbn [wf]. induction Hl' as [| v v' l l' Hv _ IHl]; [reflexivity |].
    inversion IH as [| ? ? Hx Hl]; subst. cbn [forallb].
    rewrite (Hx _ (Hall _ (or_introl eq_refl)) Hv).
    apply IHl; [exact Hl |]. intros x Hin. apply Hall. now right.
  - destruct (limit_dict_spec _ _ Hwf HT) as (d' & -> & Hloop & _ & _).
    pose proof (wf_dict _ Hwf) as [Hnd Hsub].
    pose proof (dict_loop_NoDup _ _ _ _ Hnd Hloop) as Hnd'.
    cbn [wf]. apply andb_true_iff. split; [now apply distinct_NoDup |].
    apply forallb_forall. intros [k v'] Hin. cbn [snd].
    pose proof (In_dict_get _ _ _ Hnd' Hin) as Hg'.
    destruct (limit_dict_entry _ _ _ _ Hwf HT Hg')
      as [(dflt & c & _ & Hm) | [(v & Hg & Hc & Hv) | [_ Hc]]].
    + eauto using scalar_wf, py_min_scalar.
    + rewrite Forall_forall in IH.
      apply (IH (k, v) (dict_get_In _ _ _ Hg)); [| exact Hv].
      eauto using dict_get_In.
    + now apply scalar_wf.
Qed.

Lemma limit_complexity_wf_witness : wf nested_schema_limited = true.
Proof.
  apply (limit_complexity_wf nested_schema nested_schema_limited);
    reflexivity.
Defined.

(** The keys of the dictionary the loop returns: those it started with,
    in their order, then the bound key if it was missing. *)
Lemma dict_loop_keys (rec : json -> res json) :
  forall items cur out,
    NoDup (map fst items) -> pending items cur ->
    dict_loop rec items cur = Ok out ->
    keys out
    = (keys cur
         ++ match type_bound items with
            | Some (b, _, _) =>
                match dict_get cur b with
                | Some _ => []
                | None => [b]
                end
            | None => []
            end)%list.
Proof.
  unfold keys.
  induction items as [| [key value] rest IH]; intros cur out Hnd Hp Hrun.
  - simpl in Hrun. injection Hrun as <-.
    unfold type_bound. simpl. now rewrite app_nil_r.
  - assert (Hrest : NoDup (map fst rest)) by (now inversion Hnd).
    pose proof (NoDup_head_absent _ _ _ Hnd) as Habs.
    pose proof (pending_tail _ _ _ _ Hnd Hp) as Hp'.
    rewrite dict_loop_cons in Hrun.
    destruct (trigger key value) as [[[b dflt] c] |] eqn:Htr.
    + pose proof (trigger_key _ _ _ Htr) as ->.
      apply rbind_Ok in Hrun as (m & Hm & Hrun).
      assert (Hp2 : pending rest (dict_set cur b m)).
      { intros k v Hg Hc. destruct (String.eqb_spec b k) as [-> | Hne].
        - exfalso. specialize (Hp' _ _ Hg Hc).
          unfold dict_get_default in Hm. rewrite Hp' in Hm.
          rewrite py_min_container in Hm by exact Hc. discriminate.
        - rewrite dict_get_set_other by exact Hne. now apply Hp'. }
      rewrite (IH _ _ Hrest Hp2 Hrun).
      unfold type_bound at 1. rewrite Habs, app_nil_r, dict_set_keys.
      unfold type_bound. rewrite dict_get_cons, String.eqb_refl, Htr.
      destruct (dict_get cur b); [now rewrite app_nil_r | reflexivity].
    + assert (Htb : forall cur',
                (forall b, dict_get cur' b = None
                           <-> dict_get cur b = None) ->
                match type_bound rest with
                | Some (b, _, _) =>
                    match dict_get cur' b with
                    | Some _ => []
                    | None => [b]
                    end
                | None => []
                end
                = match type_bound ((key, value) :: rest) with
                  | Some (b, _, _) =>
                      match dict_get cur b with
                      | Some _ => []
                      | None => [b]
                      end
                  | None => []
                  end).
      { intros cur' Hsame. unfold type_bound. rewrite dict_get_cons.
        eqb_cases key "type".
        - rewrite Habs, Htr. reflexivity.
        - destruct (dict_get rest "type") as [tv |]; [| reflexivity].
          destruct (trigger "type" tv) as [[[b dflt] c] |]; [| reflexivity].
          specialize (Hsame b).
          destruct (dict_get cur' b), (dict_get cur b); try reflexivity.
          + assert (@None json = None) as H0 by reflexivity.
            apply Hsame in H0. discriminate.
          + assert (@None json = None) as H0 by reflexivity.
            apply Hsame in H0. discriminate. }
      destruct (is_container value) eqn:Hc.
      * apply rbind_Ok in Hrun as (v' & Hv' & Hrun).
        assert (Hcur : dict_get cur key = Some value).
        { apply Hp; [| exact Hc]. now rewrite dict_get_cons, String.eqb_refl. }
        pose proof (pending_set _ _ key v' Habs Hp') as Hp2.
        rewrite (IH _ _ Hrest Hp2 Hrun), dict_set_keys, Hcur.
        f_equal. apply Htb. intros b.
        destruct (String.eqb_spec key b) as [<- | Hne].
        -- rewrite dict_get_set_same, Hcur. split; discriminate.
        -- now rewrite dict_get_set_other.
      * rewrite (IH _ _ Hrest Hp' Hrun). f_equal. apply Htb. tauto.
Qed.

(** X3.  The limiter keeps the order of the entries of a dictionary: the
    keys of the output are the keys of the input in the same order,
    followed by the bound key of the dictionary's type when the input did
    not have it. *)
Theorem limit_complexity_key_order (d : dict) (r : json) :
  wf (JDict d) = true -> limit_complexity (JDict d) = Ok r ->
  exists d', r = JDict d' /\ keys d' = (keys d ++ appended_key d)%list.
Proof.
  intros Hwf Hd.
  destruct (limit_dict_spec _ _ Hwf Hd) as (d' & -> & Hloop & _ & _).
  exists d'. split; [reflexivity |].
  apply wf_dict in Hwf as [Hnd _].
  apply (dict_loop_keys limit_complexity _ _ _ Hnd); [| exact Hloop].
  intros k v Hg _. exact Hg.
Qed.

Lemma limit_complexity_key_order_witness :
  exists d',
    JDict [("type", JStr "array");
           ("items", JDict [("type", JStr "integer"); ("maxLength", JInt 20)]);
           ("maxItems", JInt 5)] = JDict d'
    /\ keys d'
       = (keys [("type", JStr "array"); ("items", integer_schema)]
            ++ appended_key [("type", JStr "array");
                             ("items", integer_schema)])%list.
Proof.
  apply limit_complexity_key_order; reflexivity.
Defined.

(** X4.  What the limiter writes on integers.  At every dictionary node
    whose type asks for a bound, an integer bound [z] becomes the smaller
    of [z] and the ceiling, and a missing bound becomes the ceiling
    itself: the defaults 10 and 100 of the source never reach the
    output. *)
Theorem limit_complexity_integer_bound (T T' : json) (p : list step)
    (d : dict) (k : string) :
  wf T = true -> limit_complexity T = Ok T' ->
  at_path p T = Some (JDict d) -> caps d k = true ->
  exists d',
    at_path p T' = Some (JDict d')
    /\ (dict_get d k = None -> dict_get d' k = Some (JInt (ceiling k)))
    /\ (forall z, dict_get d k = Some (JInt z) ->
                  dict_get d' k = Some (JInt (Z.min z (ceiling k)))).
Proof.
  intros Hwf HT Hn Hcaps.
  destruct (limit_at_dict _ _ _ _ Hwf HT Hn) as (d' & Hn' & Hwd & Hd).
  exists d'. split; [exact Hn' |].
  apply caps_true in Hcaps as (dflt & c & Htb).
  destruct (limit_dict_bound _ _ _ _ _ Hwd Hd Htb) as (m & Hm & Hgm).
  destruct (type_bound_facts _ _ _ _ Htb) as (_ & -> & Hle).
  unfold dict_get_default in Hm. split.
  - intros Hg. rewrite Hg, py_min_int in Hm. injection Hm as <-.
    now rewrite Hgm, Z.min_r.
  - intros z Hg. rewrite Hg, py_min_int in Hm. injection Hm as <-.
    exact Hgm.
Qed.

Lemma limit_complexity_integer_bound_witness :
  exists d',
    at_path [] nested_schema_limited = Some (JDict d')
    /\ (dict_get
          [("type", JStr "array"); ("maxItems", JInt 7);
           ("items", JDict [("maxLength", JInt 3); ("type", JStr "string")]);
           ("anyOf", JList [JDict [("type", JStr "object")]; JBool true])]
          "maxItems" = None ->
        dict_get d' "maxItems" = Some (JInt (ceiling "maxItems")))
    /\ (forall z,
          dict_get
            [("type", JStr "array"); ("maxItems", JInt 7);
             ("items", JDict [("maxLength", JInt 3);
                              ("type", JStr "string")]);
             ("anyOf", JList [JDict [("type", JStr "object")]; JBool true])]
            "maxItems" = Some (JInt z) ->
          dict_get d' "maxItems" = Some (JInt (Z.min z (ceiling "maxItems")))).
Proof.
  apply (limit_complexity_integer_bound nested_schema nested_schema_limited
           [] _ "maxItems"); reflexivity.
Defined.

(** ** The limiter and the order of dictionary entries *)

Lemma same_content_kind (v v2 : json) :
  same_content v v2 ->
  is_container v = is_container v2 /\ (is_container v = false -> v = v2).
Proof.
  intros H. destruct H; simpl; split; try reflexivity; try discriminate.
Qed.

Lemma same_content_kind_flip (v v2 : json) :
  same_content v2 v ->
  is_container v = is_container v2 /\ (is_container v = false -> v = v2).
Proof.
  intros H. destruct (same_content_kind _ _ H) as [Hk Heq].
  split; [now symmetry |]. intros Hc. symmetry. apply Heq. congruence.
Qed.

Section Related.
Variable R : json -> json -> Prop.
Hypothesis R_kind :
  forall v v2, R v v2 ->
    is_container v = is_container v2 /\ (is_container v = false -> v = v2).
Hypothesis R_scalar : forall v, is_container v = false -> R v v.

Lemma related_trigger (k : string) (v v2 : json) :
  R v v2 -> trigger k v = trigger k v2.
Proof.
  intros H. destruct (R_kind _ _ H) as [Hk Heq].
  destruct (is_container v) eqn:Hc.
  - unfold trigger. destruct (String.eqb k "type"); [| reflexivity].
    destruct v, v2; try discriminate; reflexivity.
  - now rewrite (Heq eq_refl).
Qed.

Lemma related_type_bound (d d2 : dict) :
  (forall k, opt_rel R (dict_get d k) (dict_get d2 k)) ->
  type_bound d = type_bound d2.
Proof.
  intros Hrel. unfold type_bound.
  destruct (Hrel "type") as [| v v2 Hv]; [reflexivity |].
  now apply related_trigger.
Qed.

(** A dictionary with related entries is limited to a dictionary with
    related entries. *)
Lemma limit_dict_related (d d2 d' : dict) :
  wf (JDict d) = true -> wf (JDict d2) = true ->
  (forall k, opt_rel R (dict_get d k) (dict_get d2 k)) ->
  (forall k v v2 r,
     dict_get d k = Some v -> dict_get d2 k = Some v2 ->
     is_container v = true -> limit_complexity v = Ok r ->
     exists r2, limit_complexity v2 = Ok r2 /\ R r r2) ->
  limit_complexity (JDict d) = Ok (JDict d') ->
  exists d2',
    limit_complexity (JDict d2) = Ok (JDict d2')
    /\ forall k, opt_rel R (dict_get d' k) (dict_get d2' k).
Proof.
  intros Hwf Hwf2 Hrel Hsub Hd.
  pose proof (related_type_bound _ _ Hrel) as Htb.
  assert (Hdef : forall b dflt c m,
             type_bound d = Some (b, dflt, c) ->
             py_min (dict_get_default d b (JInt dflt)) c = Ok m ->
             dict_get_default d2 b (JInt dflt)
             = dict_get_default d b (JInt dflt)).
  { intros b dflt c m _ Hm. unfold dict_get_default in *.
    destruct (Hrel b) as [| v v2 Hv]; [reflexivity |].
    destruct (R_kind _ _ Hv) as [_ Heq]. symmetry. apply Heq.
    destruct (is_container v) eqn:Hc; [| reflexivity].
    rewrite py_min_container in Hm by exact Hc. discriminate. }
  assert (Hrun : exists d2', dict_loop limit_complexity d2 d2 = Ok d2').
  { apply dict_loop_total.
    - now apply wf_dict in Hwf2.
    - intros k v2 Hg2 Hc2. pose proof (Hrel k) as Hk. rewrite Hg2 in Hk.
      inversion Hk as [| v v2' Hv Hg]; subst. symmetry in Hg.
      destruct (R_kind _ _ Hv) as [Hkind _].
      assert (Hc : is_container v = true) by congruence.
      destruct (limit_dict_container _ _ _ _ Hwf Hd Hg Hc) as (r & Hr & _).
      destruct (Hsub _ _ _ _ Hg Hg2 Hc Hr) as (r2 & Hr2 & _). eauto.
    - intros b dflt c Htb2. rewrite <- Htb in Htb2.
      destruct (limit_dict_bound _ _ _ _ _ Hwf Hd Htb2) as (m & Hm & _).
      split.
      + exists m. now rewrite (Hdef _ _ _ _ Htb2 Hm).
      + intros v2 Hg2. pose proof (Hdef _ _ _ _ Htb2 Hm) as Hsame.
        unfold dict_get_default in Hsame, Hm. rewrite Hg2 in Hsame.
        rewrite <- Hsame in Hm.
        destruct (py_min_inv _ _ _ Hm) as (a & Ha & _).
        eauto using of_json_scalar. }
  destruct Hrun as [d2' Hloop2]. exists d2'.
  assert (Hd2 : limit_complexity (JDict d2) = Ok (JDict d2'))
    by (now rewrite limit_complexity_dict, Hloop2).
  split; [exact Hd2 |]. intros k.
  destruct (caps d k) eqn:Hcaps.
  - apply caps_true in Hcaps as (dflt & c & Htbk).
    destruct (limit_dict_bound _ _ _ _ _ Hwf Hd Htbk) as (m & Hm & Hgm).
    assert (Htbk2 : type_bound d2 = Some (k, dflt, c)) by congruence.
    destruct (limit_dict_bound _ _ _ _ _ Hwf2 Hd2 Htbk2) as (m2 & Hm2 & Hgm2).
    rewrite (Hdef _ _ _ _ Htbk Hm) in Hm2.
    assert (m2 = m) as -> by congruence.
    rewrite Hgm, Hgm2. constructor. eauto using py_min_scalar.
  - assert (Hnot : forall dflt c, type_bound d <> Some (k, dflt, c)).
    { intros dflt c Hk.
      assert (caps d k = true) by (apply caps_true; eauto). congruence. }
    assert (Hnot2 : forall dflt c, type_bound d2 <> Some (k, dflt, c))
      by (intros dflt c; rewrite <- Htb; apply Hnot).
    pose proof (Hrel k) as Hk.
    inversion Hk as [Hg Hg2 | v v2 Hv Hg Hg2]; symmetry in Hg, Hg2.
    + rewrite (limit_dict_absent _ _ _ Hwf Hd Hg Hnot),
        (limit_dict_absent _ _ _ Hwf2 Hd2 Hg2 Hnot2). constructor.
    + destruct (R_kind _ _ Hv) as [Hkind Heq].
      destruct (is_container v) eqn:Hc.
      * destruct (limit_dict_container _ _ _ _ Hwf Hd Hg Hc)
          as (r & Hr & Hgr).
        destruct (Hsub _ _ _ _ Hg Hg2 Hc Hr) as (r2 & Hr2 & Hrr).
        destruct (limit_dict_container _ _ _ _ Hwf2 Hd2 Hg2
                    (eq_sym Hkind)) as (r2' & Hr2' & Hgr2).
        assert (r2' = r2) as -> by congruence.
        rewrite Hgr, Hgr2. now constructor.
      * assert (Hc2 : is_container v2 = false) by congruence.
        rewrite (limit_dict_scalar _ _ _ _ Hwf Hd Hg Hc Hnot),
          (limit_dict_scalar _ _ _ _ Hwf2 Hd2 Hg2 Hc2 Hnot2).
        now constructor.
Qed.
End Related.

Lemma same_content_flip_scalar (v : json) :
  is_container v = false -> same_content v v.
Proof. now constructor. Qed.

(** Related inputs give related outputs, in both directions. *)
Lemma limit_complexity_related :
  forall T1 T2,
    wf T1 = true -> wf T2 = true -> same_content T1 T2 ->
    (forall r1, limit_complexity T1 = Ok r1 ->
                exists r2, limit_complexity T2 = Ok r2 /\ same_content r1 r2)
    /\ (forall r2, limit_complexity T2 = Ok r2 ->
                   exists r1, limit_complexity T1 = Ok r1
                              /\ same_content r1 r2).
Proof.
  induction T1 as [| | | | | l IH | d IH] using json_ind;
    intros T2 Hwf1 Hwf2 Hsame;
    try (inversion Hsame; subst; split; intros r Hr; exists r;
         (split; [exact Hr |]); simpl in Hr; injection Hr as <-;
         now constructor).
  - (* lists *)
    inversion Hsame as [v Hc | l1 l2 Hall | ]; subst; [discriminate |].
    pose proof (wf_list _ Hwf1) as Hw1. pose proof (wf_list _ Hwf2) as Hw2.
    clear Hwf1 Hwf2 Hsame. rewrite !limit_complexity_list.
    assert (Hboth :
              (forall r1, list_comp limit_complexity l = Ok r1 ->
                 exists r2, list_comp limit_complexity l2 = Ok r2
                            /\ Forall2 same_content r1 r2)
              /\ (forall r2, list_comp limit_complexity l2 = Ok r2 ->
                    exists r1, list_comp limit_complexity l = Ok r1
                               /\ Forall2 same_content r1 r2)).
    { induction Hall as [| x y l l2 Hxy _ IHl].
      - split; intros r [= <-]; exists [];
          (split; [reflexivity | constructor]).
      - inversion IH as [| ? ? Hx Hl]; subst.
        destruct (Hx y (Hw1 _ (or_introl eq_refl))
                    (Hw2 _ (or_introl eq_refl)) Hxy) as [Hx1 Hx2].
        destruct (IHl Hl (fun v Hv => Hw1 v (or_intror Hv))
                    (fun v Hv => Hw2 v (or_intror Hv))) as [Hl1 Hl2].
        split.
        + intros r1 Hr. simpl in Hr.
          apply rbind_Ok in Hr as (v & Hv & Hr).
          apply rbind_Ok in Hr as (vs & Hvs & [= <-]).
          destruct (Hx1 _ Hv) as (v2 & Hv2 & Hvv).
          destruct (Hl1 _ Hvs) as (vs2 & Hvs2 & Hvvs).
          exists (v2 :: vs2). simpl. rewrite Hv2. simpl. rewrite Hvs2.
          split; [reflexivity | now constructor].
        + intros r2 Hr. simpl in Hr.
          apply rbind_Ok in Hr as (v & Hv & Hr).
          apply rbind_Ok in Hr as (vs & Hvs & [= <-]).
          destruct (Hx2 _ Hv) as (v1 & Hv1 & Hvv).
          destruct (Hl2 _ Hvs) as (vs1 & Hvs1 & Hvvs).
          exists (v1 :: vs1). simpl. rewrite Hv1. simpl. rewrite Hvs1.
          split; [reflexivity | now constructor]. }
    destruct Hboth as [H1 H2]. split.
    + intros r1 Hr. apply rbind_Ok in Hr as (l' & Hl' & [= <-]).
      destruct (H1 _ Hl') as (l2' & Hl2' & Hrel).
      exists (JList l2'). rewrite Hl2'. split; [reflexivity | now constructor].
    + intros r2 Hr. apply rbind_Ok in Hr as (l' & Hl' & [= <-]).
      destruct (H2 _ Hl') as (l1' & Hl1' & Hrel).
      exists (JList l1'). rewrite Hl1'. split; [reflexivity | now constructor].
  - (* dictionaries *)
    inversion Hsame as [v Hc | | d1 d2 Hrel]; subst; [discriminate |].
    rewrite Forall_forall in IH.
    pose proof (wf_dict _ Hwf1) as [_ Hsub1].
    pose proof (wf_dict _ Hwf2) as [_ Hsub2].
    assert (Hpair : forall k v v2,
               dict_get d k = Some v -> dict_get d2 k = Some v2 ->
               same_content v v2
               /\ (forall r1, limit_complexity v = Ok r1 ->
                      exists r2, limit_complexity v2 = Ok r2
                                 /\ same_content r1 r2)
               /\ (forall r2, limit_complexity v2 = Ok r2 ->
                      exists r1, limit_complexity v = Ok r1
                                 /\ same_content r1 r2)).
    { intros k v v2 Hg Hg2. pose proof (Hrel k) as Hk.
      rewrite Hg, Hg2 in Hk. inversion Hk as [| ? ? Hv]; subst.
      split; [exact Hv |].
      apply (IH (k, v) (dict_get_In _ _ _ Hg)); eauto using dict_get_In. }
    split.
    + intros r1 Hr.
      destruct (limit_dict_spec _ _ Hwf1 Hr) as (d' & -> & _).
      destruct (limit_dict_related same_content same_content_kind
                  same_content_flip_scalar d d2 d' Hwf1 Hwf2 Hrel)
        as (d2' & Hd2 & Hrel'); [| exact Hr |].
      * intros k v v2 r Hg Hg2 _. now apply (Hpair k v v2).
      * exists (JDict d2'). split; [exact Hd2 | now constructor].
    + intros r2 Hr.
      destruct (limit_dict_spec _ _ Hwf2 Hr) as (d2' & -> & _).
      destruct (limit_dict_related (fun a b => same_content b a)
                  same_content_kind_flip same_content_flip_scalar
                  d2 d d2' Hwf2 Hwf1)
        as (d' & Hd & Hrel'); [| | exact Hr |].
      * intros k. destruct (Hrel k); now constructor.
      * intros k v2 v r Hg2 Hg _. now apply (Hpair k v v2).
      * exists (JDict d'). split; [exact Hd |]. constructor.
        intros k. destruct (Hrel' k); now constructor.
Qed.

(** X5.  Whether the limiter returns, and what it returns, does not
    depend on the order in which dictionaries list their entries: of two
    schemas that differ only in that order, at any depth, the limiter
    returns on one exactly when it returns on the other, and the two
    schemas it returns again differ only in that order. *)
Theorem limit_complexity_order_insensitive (T1 T2 : json) :
  wf T1 = true -> wf T2 = true -> same_content T1 T2 ->
  (forall r1, limit_complexity T1 = Ok r1 ->
              exists r2, limit_complexity T2 = Ok r2 /\ same_content r1 r2)
  /\ (forall r2, limit_complexity T2 = Ok r2 ->
                 exists r1, limit_complexity T1 = Ok r1
                            /\ same_content r1 r2).
Proof. exact (limit_complexity_related T1 T2). Qed.

(** Comparison of two concrete trees, entry by entry. *)
Ltac same_entries :=
  let k := fresh "k" in
  apply same_dict; intros k; cbn [dict_get];
  repeat match goal with
         | |- context [String.eqb ?a k] =>
             destruct (String.eqb_spec a k) as [<- | ?]
         end;
  cbn; constructor.

Ltac same_tree :=
  first [ now apply same_scalar
        | apply same_list;
          repeat (apply Forall2_cons || apply Forall2_nil); same_tree
        | same_entries; same_tree ].

Lemma nested_schema_reordered_same :
  same_content nested_schema nested_schema_reordered.
Proof. unfold nested_schema, nested_schema_reordered. same_tree. Qed.

Lemma limit_complexity_order_insensitive_witness :
  (forall r1, limit_complexity nested_schema = Ok r1 ->
              exists r2, limit_complexity nested_schema_reordered = Ok r2
                         /\ same_content r1 r2)
  /\ (forall r2, limit_complexity nested_schema_reordered = Ok r2 ->
                 exists r1, limit_complexity nested_schema = Ok r1
                            /\ same_content r1 r2).
Proof.
  apply limit_complexity_order_insensitive;
    [reflexivity | reflexivity | exact nested_schema_reordered_same].
Defined.

(** ** The loader and the driver: which errors are caught *)

(** X6.  [FileNotFoundError] never leaves the loader: whatever it
    raises, for a missing file as for any other argument, is not that
    error, so a path that names no file is never reported as a missing
    file. *)
Theorem load_schema_errors (w : world) (s : string) (e : exn) :
  snd (load_schema w s) = Raise e -> is_FileNotFoundError e = false.
Proof.
  rewrite load_schema_cases. destruct (fs_open w s) as [text | |].
  - destruct (json_decode w text); [discriminate |]. now intros [= <-].
  - destruct (json_decode w s); [discriminate |]. now intros [= <-].
  - now intros [= <-].
Qed.

Lemma load_schema_errors_witness :
  is_FileNotFoundError (InvalidSchema "not json") = false.
Proof.
  apply (load_schema_errors sample_world "not json"). reflexivity.
Defined.

Lemma cli_load_error (w : world) (args : arguments) (t1 : list event)
    (e : exn) :
  load_schema w (arg_schema args) = (t1, Raise e) ->
  cli w args
  = let received :=
      Stdout (ReceivedArguments (arg_schema args) (arg_num args)
                                (arg_seed args) (arg_script args)) in
    if is_ValueError e then
      ((Stdout StartingCLI :: received :: t1 ++ [Stderr (ErrorLine e)])%list,
       Raise (SystemExit 1))
    else (Stdout StartingCLI :: received :: t1, Raise e).
Proof.
  intros Hload. pose proof (main_load_error _ _ _ _ Hload) as Hmain.
  cbv zeta in *. destruct (is_ValueError e);
    now rewrite (cli_of_main _ _ _ _ Hmain).
Qed.

(** X7.  A schema argument that cannot be decoded, whether it names a file
    whose text is not JSON or names no file and is not JSON itself, ends
    the run before anything else happens: after the loader's first
    message the driver prints the error on the diagnostic stream and
    exits with status 1. *)
Theorem cli_undecodable_schema (w : world) (args : arguments) :
  let s := arg_schema args in
  let received :=
    Stdout (ReceivedArguments s (arg_num args) (arg_seed args)
                              (arg_script args)) in
  (forall text,
     fs_open w s = Opened text -> json_decode w text = None ->
     cli w args
     = ([Stdout StartingCLI; received; Stdout (AttemptingLoad s);
         Stderr (ErrorLine (JSONDecodeError text))],
        Raise (SystemExit 1)))
  /\ (fs_open w s = NotFound -> json_decode w s = None ->
      cli w args
      = ([Stdout StartingCLI; received; Stdout (AttemptingLoad s);
          Stderr (ErrorLine (InvalidSchema s))],
         Raise (SystemExit 1))).
Proof.
  cbv zeta. split.
  - intros text Hopen Hdec.
    rewrite (cli_load_error w args [Stdout (AttemptingLoad (arg_schema args))]
               (JSONDecodeError text)); [reflexivity |].
    now rewrite load_schema_cases, Hopen, Hdec.
  - intros Hopen Hdec.
    rewrite (cli_load_error w args [Stdout (AttemptingLoad (arg_schema args))]
               (InvalidSchema (arg_schema args))); [reflexivity |].
    now rewrite load_schema_cases, Hopen, Hdec.
Qed.

Lemma cli_undecodable_schema_witness :
  cli sample_world {| arg_schema := "broken.json"; arg_num := 10;
                      arg_seed := None; arg_script := None |}
  = ([Stdout StartingCLI;
      Stdout (ReceivedArguments "broken.json" 10 None None);
      Stdout (AttemptingLoad "broken.json");
      Stderr (ErrorLine (JSONDecodeError "not json"))],
     Raise (SystemExit 1)).
Proof.
  apply (proj1 (cli_undecodable_schema sample_world
                  {| arg_schema := "broken.json"; arg_num := 10;
                     arg_seed := None; arg_script := None |}));
    reflexivity.
Defined.

(** X8.  A path that exists but cannot be opened is not reported by the
    driver: the [OSError] passes both handlers of [main], nothing is
    written on the diagnostic stream, the argument is not tried as inline
    JSON, and the interpreter ends the process with status 1. *)
Theorem cli_refused_path (w : world) (args : arguments) :
  fs_open w (arg_schema args) = Refused ->
  cli w args
  = ([Stdout StartingCLI;
      Stdout (ReceivedArguments (arg_schema args) (arg_num args)
                                (arg_seed args) (arg_script args));
      Stdout (AttemptingLoad (arg_schema args))],
     Raise (OSError (arg_schema args)))
  /\ diagnostics (fst (cli w args)) = []
  /\ exit_status (snd (cli w args)) = 1.
Proof.
  intros Hopen.
  assert (Hcli : cli w args
                 = ([Stdout StartingCLI;
                     Stdout (ReceivedArguments (arg_schema args)
                               (arg_num args) (arg_seed args)
                               (arg_script args));
                     Stdout (AttemptingLoad (arg_schema args))],
                    Raise (OSError (arg_schema args)))).
  { rewrite (cli_load_error w args [Stdout (AttemptingLoad (arg_schema args))]
               (OSError (arg_schema args))); [reflexivity |].
    now rewrite load_schema_cases, Hopen. }
  rewrite Hcli. repeat split.
Qed.

Lemma cli_refused_path_witness :
  cli sample_world {| arg_schema := "locked.json"; arg_num := 10;
                      arg_seed := None; arg_script := None |}
  = ([Stdout StartingCLI;
      Stdout (ReceivedArguments "locked.json" 10 None None);
      Stdout (AttemptingLoad "locked.json")],
     Raise (OSError "locked.json"))
  /\ diagnostics
       (fst (cli sample_world {| arg_schema := "locked.json"; arg_num := 10;
                                 arg_seed := None; arg_script := None |}))
     = []
  /\ exit_status
       (snd (cli sample_world {| arg_schema := "locked.json"; arg_num := 10;
                                 arg_seed := None; arg_script := None |}))
     = 1.
Proof.
  apply (cli_refused_path sample_world
           {| arg_schema := "locked.json"; arg_num := 10;
              arg_seed := None; arg_script := None |}).
  reflexivity.
Defined.

(** [main] when the seeding call raises. *)
Lemma main_seed_error (w : world) (args : arguments) (t1 ts : list event)
    (schema : json) (e : exn) :
  load_schema w (arg_schema args) = (t1, Ok schema) ->
  set_seed w args = (ts, Raise e) ->
  main w args
  = ((Stdout (ReceivedArguments (arg_schema args) (arg_num args)
                                (arg_seed args) (arg_script args))
        :: t1 ++ ts)%list, Raise e).
Proof.
  intros Hload Hseed. unfold main, try_except.
  rewrite Hload. cbn [mbind print emit app]. rewrite Hseed. reflexivity.
Qed.

(** X9.  The seeding call stands outside both [try] blocks of [main]: when
    it raises, the exception is not reported by the driver, whatever its
    class, and nothing is generated; the run stops right after the
    message that announces the seed. *)
Theorem cli_seed_error (w : world) (args : arguments) (schema : json)
    (seed : Z) (e : exn) :
  snd (load_schema w (arg_schema args)) = Ok schema ->
  arg_seed args = Some seed ->
  seed_random w seed = Raise e ->
  snd (cli w args) = Raise e
  /\ fst (cli w args)
     = (Stdout StartingCLI
          :: Stdout (ReceivedArguments (arg_schema args) (arg_num args)
                                       (arg_seed args) (arg_script args))
          :: fst (load_schema w (arg_schema args))
          ++ [Stdout (SettingSeed seed)])%list.
Proof.
  intros Hload Hseed He. apply snd_eq in Hload.
  assert (Hset : set_seed w args = ([Stdout (SettingSeed seed)], Raise e)).
  { unfold set_seed. rewrite Hseed. cbn [mbind print emit lift].
    now rewrite He. }
  rewrite (cli_of_main _ _ _ _ (main_seed_error _ _ _ _ _ _ Hload Hset)).
  split; reflexivity.
Qed.

Lemma cli_seed_error_witness :
  snd (cli seedless_world sample_seed_arguments)
  = Raise (LibraryError "seed")
  /\ fst (cli seedless_world sample_seed_arguments)
     = (Stdout StartingCLI
          :: Stdout (ReceivedArguments array_schema_text 3 (Some 7) (Some ""))
          :: fst (load_schema seedless_world array_schema_text)
          ++ [Stdout (SettingSeed 7)])%list.
Proof.
  apply (cli_seed_error seedless_world sample_seed_arguments array_schema 7);
    reflexivity.
Defined.

(** ** The discipline of a run *)

Lemma file_writes_app (a b : list event) :
  file_writes (a ++ b) = (file_writes a ++ file_writes b)%list.
Proof.
  induction a as [| ev a IH]; [reflexivity |].
  destruct ev; simpl; now rewrite ?IH.
Qed.

Lemma spawns_app (a b : list event) :
  spawns (a ++ b) = (spawns a ++ spawns b)%list.
Proof.
  induction a as [| ev a IH]; [reflexivity |].
  destruct ev; simpl; now rewrite ?IH.
Qed.

Lemma diagnostics_app (a b : list event) :
  diagnostics (a ++ b) = (diagnostics a ++ diagnostics b)%list.
Proof.
  induction a as [| ev a IH]; [reflexivity |].
  destruct ev; simpl; now rewrite ?IH.
Qed.

Lemma orderly_nil (script : string) : orderly script [].
Proof. repeat split. intros []. Qed.

Lemma orderly_app (script : string) (a b : list event) :
  orderly script a -> orderly script b -> orderly script (a ++ b).
Proof.
  intros (Ha1 & Ha2 & Ha3 & Ha4) (Hb1 & Hb2 & Hb3 & Hb4).
  unfold orderly.
  rewrite file_writes_app, spawns_app, diagnostics_app, tested_instances_app,
    !map_app, Ha1, Ha2, Ha3, Hb1, Hb2, Hb3.
  repeat split. intros Hin. apply in_app_or in Hin. tauto.
Qed.

(** Properties of traces that hold of the empty trace and of a
    concatenation carry over from the parts of a computation to the
    whole. *)
Section Closed.
Variable I : list event -> Prop.
Hypothesis I_nil : I [].
Hypothesis I_app : forall a b, I a -> I b -> I (a ++ b)%list.

Lemma mbind_closed {A B} (m : M A) (f : A -> M B) :
  I (fst m) -> (forall a, I (fst (f a))) -> I (fst (mbind m f)).
Proof.
  destruct m as [t [a | e]]; simpl; intros Ht Hf; [| exact Ht].
  specialize (Hf a). destruct (f a) as [t' r]. simpl in *. now apply I_app.
Qed.

Lemma try_except_closed {A} (body : M A) (catches : exn -> bool)
    (handler : exn -> M A) :
  I (fst body) -> (forall e, I (fst (handler e))) ->
  I (fst (try_except body catches handler)).
Proof.
  destruct body as [t [a | e]]; simpl; intros Ht Hh; [exact Ht |].
  destruct (catches e); [| exact Ht].
  specialize (Hh e). destruct (handler e) as [t' r]. simpl in *.
  now apply I_app.
Qed.

Lemma lift_closed {A} (r : res A) : I (fst (lift r)).
Proof. exact I_nil. Qed.

Lemma run_examples_closed (strategy : nat -> res json)
    (body : json -> M unit) :
  (forall x, I (fst (body x))) ->
  forall n i, I (fst (run_examples strategy body i n)).
Proof.
  intros Hbody. induction n as [| n IH]; intros i; [exact I_nil |].
  cbn [run_examples]. apply mbind_closed; [apply lift_closed |].
  intros x. apply mbind_closed; [apply Hbody |]. intros _. apply IH.
Qed.
End Closed.

Ltac orderly_event :=
  unfold orderly; cbn; repeat split; try reflexivity; intuition discriminate.

Lemma load_schema_orderly (script : string) (w : world) (s : string) :
  orderly script (fst (load_schema w s)).
Proof.
  rewrite load_schema_cases. destruct (fs_open w s) as [text | |].
  - destruct (json_decode w text); orderly_event.
  - destruct (json_decode w s); orderly_event.
  - orderly_event.
Qed.

Lemma set_seed_orderly (script : string) (w : world) (args : arguments) :
  orderly script (fst (set_seed w args)).
Proof.
  unfold set_seed. destruct (arg_seed args) as [seed |]; simpl.
  - destruct (seed_random w seed); orderly_event.
  - apply orderly_nil.
Qed.

(** The three ways [test_instance] can go. *)
Lemma test_instance_cases (w : world) (script : string) (x : json) :
  test_instance w script x
  = match subprocess_run w [script; "testcase.json"] x with
    | Ok r =>
        if returncode r =? 0 then (acceptance_report script x, Ok tt)
        else (rejection_report script x r, Raise test_failed)
    | Raise e =>
        ([Stdout (GeneratedTestInstance x); FileWrite "testcase.json" x;
          Stdout (ExecutingScript script); Spawn [script; "testcase.json"]],
         Raise e)
    end.
Proof.
  unfold test_instance. simpl.
  destruct (subprocess_run w _ x) as [r | e]; [| reflexivity].
  destruct (returncode r =? 0); reflexivity.
Qed.

Lemma test_instance_orderly (w : world) (script : string) (x : json) :
  orderly script (fst (test_instance w script x)).
Proof.
  rewrite test_instance_cases.
  destruct (subprocess_run w _ x) as [r | e]; [| orderly_event].
  destruct (returncode r =? 0); orderly_event.
Qed.

Lemma run_test_script_orderly (w : world) (schema : json) (num : Z)
    (script : string) :
  orderly script (fst (run_test_script w schema num script)).
Proof.
  unfold run_test_script, given, print, emit.
  apply (mbind_closed _ (orderly_app script)); [orderly_event | intros _].
  apply (mbind_closed _ (orderly_app script)); [orderly_event | intros _].
  apply (mbind_closed _ (orderly_app script)); [apply orderly_nil | intros l].
  apply (mbind_closed _ (orderly_app script)); [apply orderly_nil | intros s].
  apply (mbind_closed _ (orderly_app script)); [orderly_event | intros _].
  apply (mbind_closed _ (orderly_app script)); [| intros _; orderly_event].
  apply (run_examples_closed _ (orderly_nil script) (orderly_app script)).
  apply test_instance_orderly.
Qed.

(** The generator hands nothing to a script. *)
Lemma generate_untested (w : world) (schema : json) (num : Z)
    (seed : option Z) :
  tested_instances (fst (generate_json_instances w schema num seed)) = [].
Proof.
  set (I := fun t => tested_instances t = []).
  assert (Happ : forall a b, I a -> I b -> I (a ++ b)%list).
  { unfold I. intros a b Ha Hb. now rewrite tested_instances_app, Ha, Hb. }
  change (I (fst (generate_json_instances w schema num seed))).
  unfold generate_json_instances, given, print, emit.
  apply (mbind_closed _ Happ); [reflexivity | intros _].
  apply (mbind_closed _ Happ); [reflexivity | intros _].
  apply (mbind_closed _ Happ); [reflexivity | intros l].
  apply (mbind_closed _ Happ); [reflexivity | intros s].
  apply (mbind_closed _ Happ); [reflexivity | intros _].
  apply (mbind_closed _ Happ); [| intros _; reflexivity].
  apply (run_examples_closed _ eq_refl Happ). reflexivity.
Qed.

Lemma generate_orderly (script : string) (w : world) (schema : json)
    (num : Z) (seed : option Z) :
  orderly script (fst (generate_json_instances w schema num seed)).
Proof.
  unfold generate_json_instances, given, print, emit.
  apply (mbind_closed _ (orderly_app script)); [orderly_event | intros _].
  apply (mbind_closed _ (orderly_app script)); [orderly_event | intros _].
  apply (mbind_closed _ (orderly_app script)); [apply orderly_nil | intros l].
  apply (mbind_closed _ (orderly_app script)); [apply orderly_nil | intros s].
  apply (mbind_closed _ (orderly_app script)); [orderly_event | intros _].
  apply (mbind_closed _ (orderly_app script)); [| intros _; orderly_event].
  apply (run_examples_closed _ (orderly_nil script) (orderly_app script)).
  intros x. orderly_event.
Qed.

Lemma selected_run_orderly (w : world) (schema : json) (args : arguments) :
  orderly (script_of args) (fst (selected_run w schema args)).
Proof.
  unfold selected_run, script_of.
  destruct (truthy (arg_script args)) as [script |].
  - apply run_test_script_orderly.
  - apply generate_orderly.
Qed.

(** The run of the [__main__] block, cut into the opening line, an orderly
    middle and one of the three endings. *)
Lemma cli_shape (w : world) (args : arguments) :
  exists t tail,
    fst (cli w args) = (Stdout StartingCLI :: t ++ tail)%list
    /\ orderly (script_of args) t
    /\ ending tail (snd (cli w args))
    /\ (truthy (arg_script args) = None -> tested_instances t = []).
Proof.
  set (received := Stdout (ReceivedArguments (arg_schema args) (arg_num args)
                             (arg_seed args) (arg_script args))).
  assert (Hrec : orderly (script_of args) [received]) by orderly_event.
  pose proof (load_schema_orderly (script_of args) w (arg_schema args)) as Hl.
  pose proof (load_schema_no_instance w (arg_schema args)) as [Hlt _].
  destruct (load_schema w (arg_schema args)) as [t1 [schema | e]] eqn:Hload.
  - pose proof (set_seed_orderly (script_of args) w args) as Hs.
    pose proof (set_seed_no_instance w args) as [Hst _].
    destruct (set_seed w args) as [ts [[] | e]] eqn:Hseed.
    + pose proof (selected_run_orderly w schema args) as Hr.
      assert (Hrt : truthy (arg_script args) = None ->
                    tested_instances (fst (selected_run w schema args)) = []).
      { intros Hnone. unfold selected_run. rewrite Hnone.
        apply generate_untested. }
      destruct (selected_run w schema args) as [t2 r] eqn:Hrun.
      pose proof (main_run _ _ _ _ _ _ _ Hload Hseed Hrun) as Hmain.
      cbv zeta in Hmain. fold received in Hmain. simpl in Hl, Hs, Hr, Hlt, Hst.
      assert (Hmid : orderly (script_of args)
                       ([received] ++ t1 ++ ts ++ t2)%list)
        by (repeat apply orderly_app; assumption).
      assert (Hmt : truthy (arg_script args) = None ->
                    tested_instances ([received] ++ t1 ++ ts ++ t2)%list = []).
      { intros Hnone. rewrite !tested_instances_app, Hlt, Hst.
        simpl in Hrt. now rewrite (Hrt Hnone). }
      exists ([received] ++ t1 ++ ts ++ t2)%list.
      destruct r as [[] | e].
      * exists [Stdout CompletedCLI].
        rewrite (cli_of_main _ _ _ _ Hmain). cbn [fst snd].
        repeat split; try constructor; try apply Hmid; exact Hmt.
      * destruct (is_Exception e).
        -- exists [Stderr (ErrorLine e)].
           rewrite (cli_of_main _ _ _ _ Hmain). cbn [fst snd].
           split; [cbn [app]; now rewrite <- !app_assoc |].
           repeat split; try constructor; try apply Hmid; exact Hmt.
        -- exists []. rewrite (cli_of_main _ _ _ _ Hmain). cbn [fst snd].
           split; [now rewrite app_nil_r |].
           repeat split; try constructor; try apply Hmid; exact Hmt.
    + pose proof (main_seed_error _ _ _ _ _ _ Hload Hseed) as Hmain.
      fold received in Hmain. simpl in Hl, Hs, Hlt, Hst.
      assert (Hmid : orderly (script_of args) ([received] ++ t1 ++ ts)%list)
        by (repeat apply orderly_app; assumption).
      exists ([received] ++ t1 ++ ts)%list, [].
      rewrite (cli_of_main _ _ _ _ Hmain). cbn [fst snd].
      split; [now rewrite app_nil_r |].
      repeat split; try constructor; try apply Hmid.
      intros _. now rewrite !tested_instances_app, Hlt, Hst.
  - pose proof (cli_load_error _ _ _ _ Hload) as Hcli. cbv zeta in Hcli.
    fold received in Hcli. simpl in Hl, Hlt.
    assert (Hmid : orderly (script_of args) ([received] ++ t1)%list)
      by (apply orderly_app; assumption).
    exists ([received] ++ t1)%list.
    destruct (is_ValueError e).
    + exists [Stderr (ErrorLine e)]. rewrite Hcli. cbn [fst snd].
      split; [cbn [app]; now rewrite <- ?app_assoc |].
      repeat split; try constructor; try apply Hmid.
      intros _. now rewrite tested_instances_app, Hlt.
    + exists []. rewrite Hcli. cbn [fst snd].
      split; [now rewrite app_nil_r |].
      repeat split; try constructor; try apply Hmid.
      intros _. now rewrite tested_instances_app, Hlt.
Qed.

Lemma ending_observed (tail : list event) (r : res unit) :
  ending tail r ->
  file_writes tail = [] /\ spawns tail = [] /\ tested_instances tail = [].
Proof. intros []; repeat split. Qed.

(** X10.  Whatever the world does, the driver writes at most one line on
    the diagnostic stream, the error line of one of its handlers, and
    then exits through [sys.exit(1)]; and the closing line of the
    [__main__] block is printed exactly when [main] returns. *)
Theorem cli_diagnostics (w : world) (args : arguments) :
  (diagnostics (fst (cli w args)) = []
   \/ exists e, diagnostics (fst (cli w args)) = [ErrorLine e]
                /\ snd (cli w args) = Raise (SystemExit 1))
  /\ (In (Stdout CompletedCLI) (fst (cli w args))
      <-> snd (cli w args) = Ok tt).
Proof.
  destruct (cli_shape w args) as (t & tail & -> & Hord & Hend & _).
  destruct Hord as (_ & _ & Hdiag & Hnot).
  cbn [diagnostics]. rewrite diagnostics_app, Hdiag.
  destruct Hend as [| e | e]; cbn [app diagnostics].
  - split; [now left |]. split; [reflexivity |]. intros _.
    right. apply in_or_app. right. now left.
  - split; [right; eauto |]. split; [| discriminate].
    intros [H | H]; [discriminate |].
    apply in_app_or in H as [H | [H | []]]; [contradiction | discriminate].
  - split; [now left |]. split; [| discriminate].
    intros [H | H]; [discriminate |].
    apply in_app_or in H as [H | []]. contradiction.
Qed.

(** X11.  A run without a script, which includes one whose [--script] is
    the empty string, writes no file and starts no process, whatever the
    world does. *)
Theorem cli_without_script (w : world) (args : arguments) :
  truthy (arg_script args) = None ->
  file_writes (fst (cli w args)) = []
  /\ spawns (fst (cli w args)) = []
  /\ tested_instances (fst (cli w args)) = [].
Proof.
  intros Hnone.
  destruct (cli_shape w args) as (t & tail & -> & Hord & Hend & Htest).
  destruct Hord as (Hfw & Hsp & _). specialize (Htest Hnone).
  destruct (ending_observed _ _ Hend) as (Hf & Hs & Ht).
  cbn [file_writes spawns tested_instances].
  rewrite file_writes_app, spawns_app, tested_instances_app,
    Hfw, Hsp, Htest, Hf, Hs, Ht.
  repeat split.
Qed.

Lemma cli_without_script_witness :
  file_writes (fst (cli sample_world sample_seed_arguments)) = []
  /\ spawns (fst (cli sample_world sample_seed_arguments)) = []
  /\ tested_instances (fst (cli sample_world sample_seed_arguments)) = [].
Proof. apply cli_without_script. reflexivity. Defined.

(** X12.  In a run with a script, however the run ends, nothing is
    written but announced test instances, each under the fixed name
    [testcase.json], and nothing is started but the script on that name,
    at most once per announced instance. *)
Theorem cli_with_script (w : world) (args : arguments) (script : string) :
  truthy (arg_script args) = Some script ->
  Forall (fun f => fst f = "testcase.json"
                   /\ In (snd f) (tested_instances (fst (cli w args))))
         (file_writes (fst (cli w args)))
  /\ Forall (fun argv => argv = [script; "testcase.json"])
            (spawns (fst (cli w args)))
  /\ (List.length (file_writes (fst (cli w args)))
      <= List.length (tested_instances (fst (cli w args))))%nat
  /\ (List.length (spawns (fst (cli w args)))
      <= List.length (tested_instances (fst (cli w args))))%nat.
Proof.
  intros Hscript.
  destruct (cli_shape w args) as (t & tail & -> & Hord & Hend & _).
  unfold script_of in Hord. rewrite Hscript in Hord.
  destruct Hord as (Hfw & Hsp & _).
  destruct (ending_observed _ _ Hend) as (Hf & Hs & Ht).
  cbn [file_writes spawns tested_instances].
  rewrite file_writes_app, spawns_app, tested_instances_app,
    Hfw, Hsp, Hf, Hs, Ht, !app_nil_r.
  repeat split.
  - apply Forall_forall. intros f Hin.
    apply in_map_iff in Hin as (x & <- & Hx). split; [reflexivity | exact Hx].
  - apply Forall_forall. intros argv Hin.
    now apply in_map_iff in Hin as (x & <- & _).
  - now rewrite length_map.
  - now rewrite length_map.
Qed.

Lemma cli_with_script_witness :
  Forall (fun f =>
            fst f = "testcase.json"
            /\ In (snd f)
                  (tested_instances
                     (fst (cli sample_world sample_script_arguments))))
         (file_writes (fst (cli sample_world sample_script_arguments)))
  /\ Forall (fun argv => argv = ["./check.sh"; "testcase.json"])
            (spawns (fst (cli sample_world sample_script_arguments)))
  /\ (List.length
        (file_writes (fst (cli sample_world sample_script_arguments)))
      <= List.length
           (tested_instances
              (fst (cli sample_world sample_script_arguments))))%nat
  /\ (List.length (spawns (fst (cli sample_world sample_script_arguments)))
      <= List.length
           (tested_instances
              (fst (cli sample_world sample_script_arguments))))%nat.
Proof. apply cli_with_script. reflexivity. Defined.




(** The engine on instances the script accepts. *)
Lemma run_examples_accepts (w : world) (script : string)
    (strategy : nat -> res json) :
  forall n i0,
    (forall j, (j < n)%nat ->
       exists y, strategy (i0 + j)%nat = Ok y /\ script_accepts w script y) ->
    exists t,
      run_examples strategy (test_instance w script) i0 n = (t, Ok tt)
      /\ map Ok (tested_instances t) = map strategy (seq i0 n).
Proof.
  induction n as [| n IH]; intros i0 Hpass.
  - exists []. split; reflexivity.
  - destruct (Hpass 0%nat ltac:(lia)) as (y & Hy & Hacc).
    rewrite Nat.add_0_r in Hy.
    destruct (IH (S i0)) as (t & Hrun & Hseen).
    { intros j Hj. destruct (Hpass (S j) ltac:(lia)) as (z & Hz & Hzacc).
      exists z. rewrite Nat.add_succ_r in Hz. auto. }
    exists (acceptance_report script y ++ t)%list. split.
    + cbn [run_examples]. rewrite Hy. cbn [lift mbind].
      rewrite (test_instance_accepts _ _ _ Hacc), Hrun. reflexivity.
    + rewrite tested_instances_app. cbn [seq map]. rewrite Hy.
      cbn [acceptance_report tested_instances app map]. now rewrite Hseen.
Qed.

(** X14.  When the script accepts every instance, the run hands it
    exactly the first [num] instances of the strategy, in order, prints
    the closing message of the runner and exits with status 0. *)
Theorem run_test_script_all_accepted (w : world) (args : arguments)
    (schema limited : json) (strategy : nat -> res json) (script : string) :
  truthy (arg_script args) = Some script ->
  snd (load_schema w (arg_schema args)) = Ok schema ->
  snd (set_seed w args) = Ok tt ->
  limit_complexity schema = Ok limited ->
  from_schema w limited = Ok strategy ->
  (forall j, (j < Z.to_nat (arg_num args))%nat ->
     exists y, strategy j = Ok y /\ script_accepts w script y) ->
  exit_status (snd (cli w args)) = 0
  /\ map Ok (tested_instances (fst (cli w args)))
     = map strategy (seq 0 (Z.to_nat (arg_num args)))
  /\ In (Stdout FinishedTests) (fst (cli w args)).
Proof.
  intros Hscript Hload Hseed Hlim Hfrom Hpass.
  destruct (run_examples_accepts w script strategy
              (Z.to_nat (arg_num args)) 0 Hpass) as (t & Hrun & Hseen).
  assert (Hsel : selected_run w schema args
                 = (([Stdout (RunningScript script);
                      Stdout (GeneratingTests (arg_num args));
                      Stdout StartingTests] ++ t
                       ++ [Stdout FinishedTests])%list, Ok tt)).
  { unfold selected_run. rewrite Hscript.
    unfold run_test_script, given. rewrite Hlim.
    cbn [lift mbind print emit]. rewrite Hfrom.
    cbn [lift mbind print emit]. rewrite Hrun. reflexivity. }
  destruct (load_schema_no_instance w (arg_schema args)) as [Hlt _].
  destruct (set_seed_no_instance w args) as [Hst _].
  apply snd_eq in Hload, Hseed.
  pose proof (main_run _ _ _ _ _ _ _ Hload Hseed Hsel) as Hmain.
  cbv zeta iota in Hmain.
  rewrite (cli_of_main _ _ _ _ Hmain). cbn [fst snd].
  split; [reflexivity |]. split.
  - cbn [tested_instances app].
    rewrite !tested_instances_app, Hlt, Hst.
    cbn [tested_instances app].
    rewrite tested_instances_app, ?app_nil_r. exact Hseen.
  - right. apply in_or_app. left. right.
    apply in_or_app. right. apply in_or_app. right.
    apply in_or_app. right. apply in_or_app. right. now left.
Qed.

Lemma run_test_script_all_accepted_witness :
  let args := {| arg_schema := array_schema_text; arg_num := 2;
                 arg_seed := None; arg_script := Some "./check.sh" |} in
  exit_status (snd (cli sample_world args)) = 0
  /\ map Ok (tested_instances (fst (cli sample_world args)))
     = map sample_strategy (seq 0 (Z.to_nat 2))
  /\ In (Stdout FinishedTests) (fst (cli sample_world args)).
Proof.
  cbv zeta.
  apply (run_test_script_all_accepted sample_world
           {| arg_schema := array_schema_text; arg_num := 2;
              arg_seed := None; arg_script := Some "./check.sh" |}
           array_schema array_schema_limited sample_strategy "./check.sh");
    try reflexivity.
  intros j Hj. cbn in Hj.
  destruct j as [| [| j]]; [| | lia];
    (eexists; split; [reflexivity |]; eexists; split; reflexivity).
Defined.

(** ** The limited schema accepts no more than the schema *)






